(** * StampCard: the stamp presentation controller

    A shallow embedding of [src/app/components/stampCard.tsx]: the React
    component [StampCard] with its seven state cells, the two effects
    (fetch on identifier change, offer derivation on record change), the
    click handlers and the render function.

    Conventions.
    - A [State] holds the values of the [useState] cells; every setter of
      the source is a function [State -> State] of the same name.
    - A [World] adds what lives outside the component: the [stampId] prop,
      the fetches that are still pending, the toasts requested so far, the
      clipboard with what the page finds at [navigator.clipboard], and the
      exceptions that left an event handler or a render.
    - A field that a response may lack is an [option]; reading through a
      missing value raises, as it does in JavaScript.
    - One [step] is one browser event handled to quiescence: the handler
      runs, the batched state updates are committed and the effects they
      trigger are flushed.
    - Numbers that the source treats as finite doubles ([btcrate]) are
      rationals: every finite double is a rational and the sign of an
      IEEE difference of two finite doubles is the sign of the exact
      difference. *)

From Stdlib Require Import Ascii String QArith Lqa Sorted.
From stdpp Require Import base option list strings.

Open Scope string_scope.
Open Scope list_scope.

(** ** Types imported from [../utils/getStampInfo]

    Only the fields that [stampCard.tsx] reads are kept. *)
Module Api.

Record Dispenser := {
  source : string;
  btcrate : Q;
  give_remaining : Z;
  escrow_quantity : Z;
}.

Record Stamp := {
  cpid : string;
  stamp_mimetype : option string;   (* [None]: the response has no such field *)
  stamp_base64 : string;
  stamp_url : string;
}.

(** [StampInfoResponse["data"]]. *)
Record Data := {
  stamp : Stamp;
  dispensers : list Dispenser;
}.

End Api.

(** JavaScript truthiness of a string: only the empty string is falsy. *)
Definition truthy (s : string) : bool :=
  match s with
  | EmptyString => false
  | String _ _ => true
  end.

(** ** [atob]: forgiving-base64 decode

    [atob] is the browser's function; it follows the "forgiving-base64
    decode" algorithm of the WHATWG Infra standard and raises
    [InvalidCharacterError] where the algorithm fails ([None] here). *)
Module Base64.

Definition is_ascii_whitespace (c : ascii) : bool :=
  let n := nat_of_ascii c in
  (n =? 9)%nat || (n =? 10)%nat || (n =? 12)%nat || (n =? 13)%nat || (n =? 32)%nat.

(** Position of a code point in the base64 alphabet [A-Za-z0-9+/]. *)
Definition sextet (c : ascii) : option nat :=
  let n := nat_of_ascii c in
  if (65 <=? n)%nat && (n <=? 90)%nat then Some (n - 65)%nat
  else if (97 <=? n)%nat && (n <=? 122)%nat then Some (n - 71)%nat
  else if (48 <=? n)%nat && (n <=? 57)%nat then Some (n + 4)%nat
  else if (n =? 43)%nat then Some 62%nat
  else if (n =? 47)%nat then Some 63%nat
  else None.

Definition is_equals (c : ascii) : bool := (nat_of_ascii c =? 61)%nat.

(** Step 2: when the length is a multiple of four, drop one or two
    trailing [=]. The list is handled reversed. *)
Definition strip_padding (data : list ascii) : list ascii :=
  if (length data mod 4 =? 0)%nat then
    match rev data with
    | a :: b :: r =>
        if is_equals a then (if is_equals b then rev r else rev (b :: r))
        else data
    | [a] => if is_equals a then [] else data
    | [] => data
    end
  else data.

(** Steps 4 to 10: all code points must be in the alphabet. *)
Fixpoint sextets (data : list ascii) : option (list nat) :=
  match data with
  | [] => Some []
  | c :: rest =>
      match sextet c, sextets rest with
      | Some v, Some vs => Some (v :: vs)
      | _, _ => None
      end
  end.

(** Four sextets give three bytes; a final group of three gives two
    bytes (the last two bits are discarded) and a final group of two
    gives one byte (the last four bits are discarded). *)
Fixpoint bytes (vs : list nat) : list ascii :=
  match vs with
  | a :: b :: c :: d :: rest =>
      ascii_of_nat (a * 4 + b / 16)
        :: ascii_of_nat ((b mod 16) * 16 + c / 4)
        :: ascii_of_nat ((c mod 4) * 64 + d)
        :: bytes rest
  | [a; b; c] =>
      [ascii_of_nat (a * 4 + b / 16); ascii_of_nat ((b mod 16) * 16 + c / 4)]
  | [a; b] => [ascii_of_nat (a * 4 + b / 16)]
  | _ => []
  end.

Definition atob (data : string) : option string :=
  let data := List.filter (fun c => negb (is_ascii_whitespace c))
                (list_ascii_of_string data) in
  let data := strip_padding data in
  if (length data mod 4 =? 1)%nat then None
  else
    match sextets data with
    | Some vs => Some (string_of_list_ascii (bytes vs))
    | None => None
    end.

End Base64.

Definition atob : string -> option string := Base64.atob.

(** ** [Array.prototype.sort]

    ECMAScript (2019 on) requires the sort to be stable; for a consistent
    comparator the result is then determined: elements are ordered by the
    comparator and elements it cannot tell apart keep their input order.
    [compareFn a b] is the number the callback returns: [a] is placed
    after [b] only when it is positive. *)
Section ArraySort.

Context {A : Type} (compareFn : A -> A -> Q).

Fixpoint place (a : A) (sorted : list A) : list A :=
  match sorted with
  | [] => [a]
  | b :: rest =>
      if Qle_bool (compareFn a b) 0 then a :: b :: rest
      else b :: place a rest
  end.

Definition Array_sort (l : list A) : list A := foldr place [] l.

End ArraySort.

(** ** State cells of [StampCard] (lines 106-112) *)
Record State := {
  stampData : option Api.Data;
  isDispenserOpen : bool;
  loading : bool;
  error : option string;
  isFlipped : bool;
  dispensers : list Api.Dispenser;
  selectedDispenser : option Api.Dispenser;
}.

Definition initialState : State := {|
  stampData := None;
  isDispenserOpen := false;
  loading := true;
  error := None;
  isFlipped := false;
  dispensers := [];
  selectedDispenser := None;
|}.

Definition setStampData (v : option Api.Data) (s : State) : State :=
  {| stampData := v; isDispenserOpen := isDispenserOpen s; loading := loading s;
     error := error s; isFlipped := isFlipped s; dispensers := dispensers s;
     selectedDispenser := selectedDispenser s |}.

Definition setIsDispenserOpen (v : bool) (s : State) : State :=
  {| stampData := stampData s; isDispenserOpen := v; loading := loading s;
     error := error s; isFlipped := isFlipped s; dispensers := dispensers s;
     selectedDispenser := selectedDispenser s |}.

Definition setLoading (v : bool) (s : State) : State :=
  {| stampData := stampData s; isDispenserOpen := isDispenserOpen s; loading := v;
     error := error s; isFlipped := isFlipped s; dispensers := dispensers s;
     selectedDispenser := selectedDispenser s |}.

Definition setError (v : option string) (s : State) : State :=
  {| stampData := stampData s; isDispenserOpen := isDispenserOpen s; loading := loading s;
     error := v; isFlipped := isFlipped s; dispensers := dispensers s;
     selectedDispenser := selectedDispenser s |}.

Definition setIsFlipped (v : bool) (s : State) : State :=
  {| stampData := stampData s; isDispenserOpen := isDispenserOpen s; loading := loading s;
     error := error s; isFlipped := v; dispensers := dispensers s;
     selectedDispenser := selectedDispenser s |}.

Definition setDispensers (v : list Api.Dispenser) (s : State) : State :=
  {| stampData := stampData s; isDispenserOpen := isDispenserOpen s; loading := loading s;
     error := error s; isFlipped := isFlipped s; dispensers := v;
     selectedDispenser := selectedDispenser s |}.

Definition setSelectedDispenser (v : option Api.Dispenser) (s : State) : State :=
  {| stampData := stampData s; isDispenserOpen := isDispenserOpen s; loading := loading s;
     error := error s; isFlipped := isFlipped s; dispensers := dispensers s;
     selectedDispenser := v |}.

(** ** [fetchData] (lines 122-134)

    [getStampData] is imported; what the component sees of it is how the
    promise settles. *)
Inductive Settled :=
| Fulfilled (data : Api.Data)   (* fulfilled, and [data.data] is a record *)
| Rejected                      (* rejected, or fulfilled with nothing to read [data] from *)
| FulfilledWithoutData.         (* fulfilled with a response whose [data] is undefined *)

(** The continuation of [await getStampData(stampId)]: the [try] branch
    or the [catch] branch, then [finally]. It holds no test of the
    identifier the call was made for, and none of [data.data]: what is
    stored is whatever the response has there. *)
Definition fetchData (r : Settled) (s : State) : State :=
  let s :=
    match r with
    | Fulfilled data => setStampData (Some data) s
    | FulfilledWithoutData => setStampData None s
    | Rejected => setError (Some "Failed to fetch stamp information.") s
    end in
  setLoading false s.

(** ** The effect on [stampData] (lines 136-142) *)

(** [(a, b) => parseFloat(a.btcrate.toString()) - parseFloat(b.btcrate.toString())].
    Printing a finite double and parsing it back gives the same double. *)
Definition compareRate (a b : Api.Dispenser) : Q :=
  Api.btcrate a - Api.btcrate b.

Definition deriveDispensers (s : State) : State :=
  match stampData s with
  | Some data =>
      if (0 <? length (Api.dispensers data))%nat then
        let sortedDispensers := Array_sort compareRate (Api.dispensers data) in
        setSelectedDispenser (sortedDispensers !! 0%nat)
          (setDispensers sortedDispensers s)
      else s
  | None => s
  end.

(** ** [handleClick] (lines 154-162) *)
Record Target := {
  isHTMLElement : bool;
  tagName : string;
}.

Definition includes (l : list string) (x : string) : bool :=
  existsb (String.eqb x) l.

Definition interactiveElements : list string :=
  ["BUTTON"; "INPUT"; "SELECT"; "TEXTAREA"; "A"].

(** [seen] is the value of [isFlipped] in the render that created the
    handler: the closure toggles that value, not the pending one. *)
Definition handleClick (seen : bool) (target : Target) (s : State) : State :=
  if negb (isHTMLElement target) then s
  else if includes interactiveElements (tagName target) then s
  else setIsFlipped (negb seen) s.

(** ** Rendering (lines 59-61 and 164-403) *)

Definition convertBase64ToImage (base64 mimeType : string) : string :=
  "data:" +:+ mimeType +:+ ";base64," +:+ base64.

Definition nl : string := String (ascii_of_nat 10) EmptyString.

Definition spaces (n : nat) : string := string_of_list_ascii (replicate n (ascii_of_nat 32)).

(** The template literal of lines 173-180, with its line breaks and
    indentation. *)
Definition styleContent : string :=
  nl +:+ spaces 16 +:+ "<style>" +:+
  nl +:+ spaces 20 +:+ "body {" +:+
  nl +:+ spaces 24 +:+ "margin: 0;" +:+
  nl +:+ spaces 24 +:+ "overflow: hidden;" +:+
  nl +:+ spaces 20 +:+ "}" +:+
  nl +:+ spaces 16 +:+ "</style>" +:+
  nl +:+ spaces 12.

(** The [sandbox] attribute of line 197, as written. *)
Definition sandbox : string :=
  "allow-scripts allow-same-origin  allow-forms allow-popups  allow-orientation-lock allow-pointer-lock allow-presentation allow-top-navigation allow-top-navigation-by-user-activation".

(** What a piece of JSX evaluates to: an element, or an exception raised
    while evaluating it. *)
Inductive Outcome (A : Type) :=
| Returns (a : A)
| Throws.
Global Arguments Returns {A} a.
Global Arguments Throws {A}.

Inductive Preview :=
| Skeleton
| Iframe (srcDoc sandboxAttr : string)
| Image (src : string).

Definition renderStampContent (s : State) : Outcome Preview :=
  if loading s then Returns Skeleton
  else
    match stampData s with
    | Some data =>
        let st := Api.stamp data in
        match Api.stamp_mimetype st with
        | Some mimetype =>
            if String.eqb mimetype "text/html" then
              match atob (Api.stamp_base64 st) with
              | Some htmlContent => Returns (Iframe (styleContent +:+ htmlContent) sandbox)
              | None => Throws
              end
            else if String.prefix "image/" mimetype then
              Returns (Image (convertBase64ToImage (Api.stamp_base64 st) mimetype))
            else
              Returns (Image (if truthy (Api.stamp_url st) then Api.stamp_url st else "AZlogo.webp"))
        | None =>
            (* [=== "text/html"] is false of a missing value; the call of
               [.startsWith] on it (line 207) raises a TypeError *)
            Throws
        end
    | None => Returns (Image "AZlogo.webp")
    end.

(** The part of the front face under the preview (lines 271-304). *)
Inductive Footer :=
| FooterSkeleton
| FooterDetails (cpid : string)
| FooterEmpty.

(** The body of the back face (lines 328-391): the "no dispensers"
    picture, or the menu with one item per dispenser and, under it, the
    panel of the selected one. *)
Inductive BackBody :=
| NoDispensers
| DispenserMenu (items : list Api.Dispenser) (panel : option Api.Dispenser).

(** What [StampCard] returns, as far as the state decides it. The chapter,
    page and artist of the static catalogue and the icon of the back
    header are display only and are left out. *)
Inductive View :=
| ErrorText (message : string)
| CardView (modal : bool) (flipped : bool) (preview : Preview)
    (footer : Footer) (backTitle : string) (back : BackBody).

Definition renderFooter (s : State) : Footer :=
  if loading s then FooterSkeleton
  else
    match stampData s with
    | Some data => FooterDetails (Api.cpid (Api.stamp data))
    | None => FooterEmpty
    end.

Definition renderBack (s : State) : BackBody :=
  if (length (dispensers s) =? 0)%nat then NoDispensers
  else
    DispenserMenu (dispensers s)
      (if (0 <? length (dispensers s))%nat then selectedDispenser s else None).

Definition errorShown (s : State) : option string :=
  match error s with
  | Some message => if truthy message then Some message else None
  | None => None
  end.

Definition render (stampId : string) (s : State) : Outcome View :=
  match errorShown s with
  | Some message => Returns (ErrorText message)
  | None =>
      match renderStampContent s with
      | Returns preview =>
          Returns (CardView (isDispenserOpen s) (isFlipped s) preview
                     (renderFooter s) stampId (renderBack s))
      | Throws => Throws
      end
  end.

(** ** The iframe sandbox

    How a browser reads the attribute (HTML standard, "parse a sandboxing
    directive"): the value is split on ASCII whitespace and every
    sandboxing flag is set except those whose keyword is among the
    tokens. *)
Module Sandbox.

Fixpoint split (cs : list ascii) (cur : list ascii) : list string :=
  match cs with
  | [] =>
      match cur with
      | [] => []
      | _ :: _ => [string_of_list_ascii (rev cur)]
      end
  | c :: rest =>
      if Base64.is_ascii_whitespace c then
        match cur with
        | [] => split rest []
        | _ :: _ => string_of_list_ascii (rev cur) :: split rest []
        end
      else split rest (c :: cur)
  end.

Definition tokens (attr : string) : list string :=
  split (list_ascii_of_string attr) [].

Definition allows (attr keyword : string) : bool :=
  includes (tokens attr) keyword.

(** The flags the claims speak of. A set flag is a restriction. *)
Definition sandboxed_scripts (attr : string) : bool :=
  negb (allows attr "allow-scripts").

(** When set, the content gets an opaque origin and with it no access
    to the embedding page's documents, storage and cookies. *)
Definition sandboxed_origin (attr : string) : bool :=
  negb (allows attr "allow-same-origin").

(** When set, the content cannot navigate the top-level page unless a
    user gesture is being handled. *)
Definition sandboxed_top_navigation_without_user_activation (attr : string) : bool :=
  negb (allows attr "allow-top-navigation").

Definition sandboxed_top_navigation_with_user_activation (attr : string) : bool :=
  negb (allows attr "allow-top-navigation-by-user-activation"
        || allows attr "allow-top-navigation").

Definition sandboxed_modals (attr : string) : bool :=
  negb (allows attr "allow-modals").

Definition sandboxed_downloads (attr : string) : bool :=
  negb (allows attr "allow-downloads").

End Sandbox.

(** ** The component in its environment *)

(** Options of a [toast(...)] call (lines 146-151); [render] shows
    [PepeToast] with the title and description below. *)
Record ToastOptions := {
  title : string;
  description : string;
  duration : nat;
  isClosable : bool;
  position : string;
}.

(** What the page finds at [navigator.clipboard]: nothing (the property
    is undefined outside secure contexts), a clipboard that refuses
    writes, or one that accepts them. *)
Inductive ClipboardAccess :=
| Absent
| Refused
| Granted.

Record World := {
  stampId : string;              (* the prop *)
  state : State;
  pending : list string;         (* identifiers of the unsettled getStampData calls, oldest first *)
  toasts : list ToastOptions;    (* toast calls made so far, oldest first *)
  clipboard : option string;     (* last text written to the system clipboard *)
  clipboardAccess : ClipboardAccess;
  uncaughtErrors : nat;          (* exceptions that left an event handler *)
  unmounted : bool;              (* a render raised: React removed the component *)
}.

(** Whether [writeText] will succeed. *)
Definition clipboardGranted (w : World) : bool :=
  match clipboardAccess w with
  | Granted => true
  | Absent | Refused => false
  end.

Definition withState (f : State -> State) (w : World) : World :=
  {| stampId := stampId w; state := f (state w); pending := pending w;
     toasts := toasts w; clipboard := clipboard w;
     clipboardAccess := clipboardAccess w; uncaughtErrors := uncaughtErrors w;
     unmounted := unmounted w |}.

Definition withProp (id : string) (w : World) : World :=
  {| stampId := id; state := state w; pending := pending w;
     toasts := toasts w; clipboard := clipboard w;
     clipboardAccess := clipboardAccess w; uncaughtErrors := uncaughtErrors w;
     unmounted := unmounted w |}.

Definition withPending (l : list string) (w : World) : World :=
  {| stampId := stampId w; state := state w; pending := l;
     toasts := toasts w; clipboard := clipboard w;
     clipboardAccess := clipboardAccess w; uncaughtErrors := uncaughtErrors w;
     unmounted := unmounted w |}.

Definition withAccess (access : ClipboardAccess) (w : World) : World :=
  {| stampId := stampId w; state := state w; pending := pending w;
     toasts := toasts w; clipboard := clipboard w;
     clipboardAccess := access; uncaughtErrors := uncaughtErrors w;
     unmounted := unmounted w |}.

(** [navigator.clipboard.writeText(text)]: with no [navigator.clipboard]
    the property access raises a TypeError; otherwise the call returns a
    promise, fulfilled ([true]) once the text is written and rejected
    ([false]) when the browser refuses the write. *)
Definition writeText (text : string) (w : World) : Outcome (World * bool) :=
  match clipboardAccess w with
  | Absent => Throws
  | Refused => Returns (w, false)
  | Granted =>
      Returns
        ({| stampId := stampId w; state := state w; pending := pending w;
            toasts := toasts w; clipboard := Some text;
            clipboardAccess := clipboardAccess w; uncaughtErrors := uncaughtErrors w;
            unmounted := unmounted w |}, true)
  end.

Definition toast (options : ToastOptions) (w : World) : World :=
  {| stampId := stampId w; state := state w; pending := pending w;
     toasts := toasts w ++ [options]; clipboard := clipboard w;
     clipboardAccess := clipboardAccess w; uncaughtErrors := uncaughtErrors w;
     unmounted := unmounted w |}.

(** [handleCopyAddress] (lines 144-152). The promise of [writeText] is
    neither awaited nor given a handler; an exception of line 145 leaves
    the function before [toast] is called. *)
Definition copiedToast : ToastOptions :=
  {| title := "Pepe Says"; description := "Successfully copied, bro";
     duration := 3000; isClosable := true; position := "top-right" |}.

Definition handleCopyAddress (address : string) (w : World) : Outcome World :=
  match writeText address w with
  | Returns (w, _) => Returns (toast copiedToast w)
  | Throws => Throws
  end.

(** The world after an event handler has run. When the handler raises,
    React goes on dispatching the event to the handlers further up and
    reports the exception afterwards; nothing catches it. *)
Definition handled (result : Outcome World) (w : World) : World :=
  match result with
  | Returns w' => w'
  | Throws =>
      {| stampId := stampId w; state := state w; pending := pending w;
         toasts := toasts w; clipboard := clipboard w;
         clipboardAccess := clipboardAccess w; uncaughtErrors := S (uncaughtErrors w);
         unmounted := unmounted w |}
  end.

(** Elements of the card that carry an [onClick] of their own. *)
Inductive Control :=
| BuyArt                   (* line 297 *)
| Back                     (* line 395 *)
| MenuItem (index : nat)   (* line 360 *)
| CpidText                 (* line 285 *)
| CopyIcon.                (* line 376 *)

(** Whether the view contains the control. *)
Definition offers (v : View) (c : Control) : bool :=
  match v with
  | ErrorText _ => false
  | CardView _ _ _ footer _ back =>
      match c with
      | BuyArt | CpidText =>
          match footer with FooterDetails _ => true | _ => false end
      | Back => true
      | MenuItem index =>
          match back with
          | DispenserMenu items _ => bool_decide (index < length items)%nat
          | NoDispensers => false
          end
      | CopyIcon =>
          match back with
          | DispenserMenu _ (Some _) => true
          | _ => false
          end
      end
  end.

Definition onClick (c : Control) (w : World) : World :=
  match c with
  | BuyArt => withState (setIsFlipped true) w
  | Back => withState (setIsFlipped false) w
  | MenuItem index =>
      withState (setSelectedDispenser (dispensers (state w) !! index)) w
  | CpidText =>
      match stampData (state w) with
      | Some data => handled (handleCopyAddress (Api.cpid (Api.stamp data)) w) w
      | None => w
      end
  | CopyIcon =>
      match selectedDispenser (state w) with
      | Some d => handled (handleCopyAddress (Api.source d) w) w
      | None => w
      end
  end.

Inductive Event :=
| SetStampId (id : string)        (* the parent renders the card with this prop *)
| Settle (k : nat) (r : Settled)  (* the k-th pending fetch settles *)
| Click (inside : option Control) (target : Target)
    (* a click in the card: it reaches the control it is inside of, if
       any, and then bubbles to the card's [handleClick] *)
| CloseModal                      (* [onClose] of the purchase modal, line 244 *)
| ClipboardPermission (access : ClipboardAccess).
    (* what the page finds at [navigator.clipboard] changes *)

(** After the state updates of an event are applied React renders; a
    render that raises removes the component. *)
Definition commit (w : World) : World :=
  match render (stampId w) (state w) with
  | Returns _ => w
  | Throws =>
      {| stampId := stampId w; state := state w; pending := pending w;
         toasts := toasts w; clipboard := clipboard w;
         clipboardAccess := clipboardAccess w; uncaughtErrors := uncaughtErrors w;
         unmounted := true |}
  end.

(** [None]: the event cannot happen in this world (the element is not
    on the page, there is no such pending fetch, the component is gone). *)
Definition step (w : World) (e : Event) : option World :=
  if unmounted w then None
  else
    match e with
    | SetStampId id =>
        (* the effect of lines 122-134 runs when [stampId] has changed *)
        if String.eqb id (stampId w) then Some w
        else Some (commit (withPending (pending w ++ [id]) (withProp id w)))
    | Settle k r =>
        match pending w !! k with
        | Some _ =>
            let w := withPending (delete k (pending w)) w in
            let w := withState (fetchData r) w in
            (* the effect of lines 136-142 runs when [stampData] has changed *)
            let w := match r with
                     | Fulfilled _ | FulfilledWithoutData => withState deriveDispensers w
                     | Rejected => w
                     end in
            Some (commit w)
        | None => None
        end
    | Click inside target =>
        match render (stampId w) (state w) with
        | Returns (CardView _ _ _ _ _ _ as v) =>
            let seen := isFlipped (state w) in
            match inside with
            | Some c =>
                if offers v c then
                  Some (commit (withState (handleClick seen target) (onClick c w)))
                else None
            | None => Some (commit (withState (handleClick seen target) w))
            end
        | _ => None
        end
    | CloseModal =>
        match render (stampId w) (state w) with
        | Returns (CardView true _ _ _ _ _) =>
            Some (commit (withState (setIsDispenserOpen false) w))
        | _ => None
        end
    | ClipboardPermission access => Some (withAccess access w)
    end.

Fixpoint run (w : World) (trace : list Event) : option World :=
  match trace with
  | [] => Some w
  | e :: rest =>
      match step w e with
      | Some w' => run w' rest
      | None => None
      end
  end.

(** The card right after its first render with prop [id]: initial
    state, and the first fetch on its way. *)
Definition mount (id : string) : World :=
  {| stampId := id; state := initialState; pending := [id]; toasts := [];
     clipboard := None; clipboardAccess := Granted; uncaughtErrors := 0;
     unmounted := false |}.

(** ** Vocabulary of the properties *)

(** Worlds the card can be in: those a sequence of events leads to from
    a mount. *)
Definition reachable (w : World) : Prop :=
  exists id trace, run (mount id) trace = Some w.

(** The data source is honest at an event when a fulfilled fetch brings
    a record, the one of the identifier it was started for. *)
Definition answers (w : World) (e : Event) : bool :=
  match e with
  | Settle k (Fulfilled data) =>
      match pending w !! k with
      | Some id => String.eqb (Api.cpid (Api.stamp data)) id
      | None => true
      end
  | Settle _ FulfilledWithoutData => false
  | _ => true
  end.

Fixpoint honest (w : World) (trace : list Event) : bool :=
  match trace with
  | [] => true
  | e :: rest =>
      answers w e &&
      match step w e with
      | Some w' => honest w' rest
      | None => true
      end
  end.

(** Responses arrive in the order of the requests: it is always the
    oldest pending fetch that settles. *)
Definition in_order (trace : list Event) : bool :=
  forallb (fun e => match e with Settle k _ => (k =? 0)%nat | _ => true end) trace.

(** The record brought by the last fulfilled fetch of a trace (none when
    that response came without data), [acc] if there is none. *)
Fixpoint last_fulfilled (trace : list Event) (acc : option Api.Data) : option Api.Data :=
  match trace with
  | [] => acc
  | Settle _ (Fulfilled data) :: rest => last_fulfilled rest (Some data)
  | Settle _ FulfilledWithoutData :: rest => last_fulfilled rest None
  | _ :: rest => last_fulfilled rest acc
  end.

Definition by_rate (a b : Api.Dispenser) : Prop :=
  (Api.btcrate a <= Api.btcrate b)%Q.

Definition same_rate (r : Q) (d : Api.Dispenser) : bool :=
  Qeq_bool (Api.btcrate d) r.

(** The view of the Failed state. *)
Definition failedView : Outcome View :=
  Returns (ErrorText "Failed to fetch stamp information.").

(** The state of the requests while responses arrive in order: the newest
    pending fetch is the one for the prop; with nothing pending and no
    failure, the record on display is the one of the prop. *)
Definition up_to_date (w : World) : Prop :=
  (pending w = [] -> error (state w) = None ->
   exists data, stampData (state w) = Some data /\ Api.cpid (Api.stamp data) = stampId w) /\
  (pending w <> [] -> last (pending w) = Some (stampId w)).

(** ** Sample data *)
Module Sample.

Definition offer (address : string) (rate : Q) : Api.Dispenser :=
  {| Api.source := address; Api.btcrate := rate;
     Api.give_remaining := 3; Api.escrow_quantity := 10 |}.

Definition offers3 : list Api.Dispenser :=
  [offer "bc1q-first" 0.002; offer "bc1q-second" 0.0015; offer "bc1q-third" 0.003].

Definition tied : list Api.Dispenser :=
  [offer "x" 0.002; offer "y" 0.001; offer "z" 0.002; offer "u" 0.001].

Definition png (id : string) (l : list Api.Dispenser) : Api.Data :=
  {| Api.stamp := {| Api.cpid := id; Api.stamp_mimetype := Some "image/png";
                     Api.stamp_base64 := "iVBORw0KGgo=";
                     Api.stamp_url := "https://stamps.example/" +:+ id +:+ ".png" |};
     Api.dispensers := l |}.

Definition html (id payload : string) : Api.Data :=
  {| Api.stamp := {| Api.cpid := id; Api.stamp_mimetype := Some "text/html";
                     Api.stamp_base64 := payload;
                     Api.stamp_url := "https://stamps.example/" +:+ id +:+ ".html" |};
     Api.dispensers := [] |}.

Definition div : Target := {| isHTMLElement := true; tagName := "DIV" |}.
Definition button : Target := {| isHTMLElement := true; tagName := "BUTTON" |}.
Definition svg : Target := {| isHTMLElement := false; tagName := "svg" |}.

(** The world a trace leads to from a mount with "A"; the mount itself
    where the trace cannot happen. *)
Definition after (trace : list Event) : World :=
  default (mount "A") (run (mount "A") trace).

End Sample.

(** ** [useIntersectionObserver] (lines 36-57)

    The hook on its own: its state cell, its ref and the observers its
    effect has created. Elements are numbered. An observer is known by the
    elements it observes: the browser calls its callback with entries for
    those only. *)
Module Visibility.

Record Hook := {
  isInView : bool;
  current : option nat;           (* [ref.current] *)
  observers : list (list nat);    (* the observers created so far, oldest first *)
}.

Definition initial : Hook :=
  {| isInView := false; current := None; observers := [] |}.

(** The effect body (lines 41-47): a new observer, which observes the
    element of the ref if there is one. *)
Definition effect (h : Hook) : Hook :=
  {| isInView := isInView h; current := current h;
     observers := observers h ++ [match current h with
                                  | Some el => [el]
                                  | None => []
                                  end] |}.

(** The cleanup of the effect that created observer [o] (lines 49-53):
    it reads the ref when it runs. *)
Definition cleanup (o : nat) (h : Hook) : Hook :=
  match current h with
  | Some el =>
      {| isInView := isInView h; current := current h;
         observers := alter (List.filter (fun x => negb (x =? el)%nat)) o (observers h) |}
  | None => h
  end.

(** The callback (lines 41-43), [([entry]) => setIsInView(entry.isIntersecting)];
    with no entry the property access raises. *)
Definition callback (entries : list (nat * bool)) (h : Hook) : option Hook :=
  match entries with
  | (_, isIntersecting) :: _ =>
      Some {| isInView := isIntersecting; current := current h; observers := observers h |}
  | [] => None
  end.

Inductive Event :=
| Attach (el : option nat)
    (* React stores in the ref the element it is attached to, or null *)
| Rerun
    (* a render with another [options] object: the cleanup of the last
       effect, if there was one, then the effect *)
| Intersect (o : nat) (entries : list (nat * bool)).
    (* the browser reports to observer [o] about elements it observes *)

Definition step (h : Hook) (e : Event) : option Hook :=
  match e with
  | Attach el =>
      Some {| isInView := isInView h; current := el; observers := observers h |}
  | Rerun =>
      Some (effect (match length (observers h) with
                    | O => h
                    | S o => cleanup o h
                    end))
  | Intersect o entries =>
      match observers h !! o with
      | Some targets =>
          if forallb (fun entry => existsb (Nat.eqb (fst entry)) targets) entries
          then callback entries h
          else None
      | None => None
      end
  end.

Fixpoint run (h : Hook) (trace : list Event) : option Hook :=
  match trace with
  | [] => Some h
  | e :: rest =>
      match step h e with
      | Some h' => run h' rest
      | None => None
      end
  end.

Definition attaches (e : Event) : bool :=
  match e with
  | Attach (Some _) => true
  | _ => false
  end.

End Visibility.

(** ** [getStampDetails] (lines 62-73)

    The four chapter tables are imported from [../utils/stampIDs]; they
    are parameters here. Of an entry the card reads [cpid], [chapter],
    [page] and [artist]. The second component of the result is what the
    call writes with [console.warn]. *)
Module Catalog.

Record Entry := {
  cpid : string;
  chapter : string;
  page : string;
  artist : string;
}.

Record Warning := {
  message : string;
  duplicates : list Entry;
}.

(** The callback [(stamp) => stamp.cpid === stampId]. *)
Definition hasCpid (stampId : string) (stamp : Entry) : bool :=
  String.eqb (cpid stamp) stampId.

Section Chapters.

Context (chapter1StampIds chapter2StampIds chapter3StampIds chapter4StampIds : list Entry).

Definition allChapters : list Entry :=
  chapter1StampIds ++ chapter2StampIds ++ chapter3StampIds ++ chapter4StampIds.

Definition getStampDetails (stampId : string) : option Entry * list Warning :=
  let stampDetails := List.find (hasCpid stampId) allChapters in
  let duplicates := List.filter (hasCpid stampId) allChapters in
  (stampDetails,
   if (1 <? length duplicates)%nat then
     [{| message := "Duplicate cpid found for stampId: " +:+ stampId;
         duplicates := duplicates |}]
   else []).

End Chapters.

End Catalog.

(** ** Vocabulary of further properties *)

(** The last record of a trace that came with offers, [acc] if there is
    none. *)
Fixpoint last_with_offers (trace : list Event) (acc : option Api.Data) : option Api.Data :=
  match trace with
  | [] => acc
  | Settle _ (Fulfilled data) :: rest =>
      last_with_offers rest
        (if (0 <? length (Api.dispensers data))%nat then Some data else acc)
  | _ :: rest => last_with_offers rest acc
  end.

Definition sorted_offers (record : option Api.Data) : list Api.Dispenser :=
  match record with
  | Some data => Array_sort compareRate (Api.dispensers data)
  | None => []
  end.

(** Clicks that reach one of the two controls that copy. *)
Definition is_copy_click (e : Event) : bool :=
  match e with
  | Click (Some CpidText) _ | Click (Some CopyIcon) _ => true
  | _ => false
  end.

(** Events of the user or the browser that are neither a change of the
    prop nor the settling of a fetch. *)
Definition is_local (e : Event) : bool :=
  match e with
  | SetStampId _ | Settle _ _ => false
  | _ => true
  end.

Definition is_settle (e : Event) : bool :=
  match e with
  | Settle _ _ => true
  | _ => false
  end.

Definition is_rejection (e : Event) : bool :=
  match e with
  | Settle _ Rejected => true
  | _ => false
  end.



Definition clipboardPresent (w : World) : bool :=
  match clipboardAccess w with
  | Absent => false
  | Refused | Granted => true
  end.

(** Events that do not take the clipboard away from the page. *)
Definition keeps_clipboard (e : Event) : bool :=
  match e with
  | ClipboardPermission Absent => false
  | _ => true
  end.


(** A string without a semicolon. *)
Fixpoint no_semicolon (s : string) : bool :=
  match s with
  | EmptyString => true
  | String c rest => negb (Ascii.eqb c ";") && no_semicolon rest
  end.

(** * Properties *)

(** ** [atob] on examples *)
Example atob_script :
  atob "PHNjcmlwdD50b3AubG9jYXRpb249Jy8vZXZpbCc8L3NjcmlwdD4="
  = Some "<script>top.location='//evil'</script>".
Proof. reflexivity. Qed.

Example atob_padding : atob "YQ==" = Some "a" /\ atob "YWI=" = Some "ab" /\ atob "YWJj" = Some "abc".
Proof. repeat split; reflexivity. Qed.

Example atob_forgiving : atob " Y Q " = Some "a" /\ atob "YQ" = Some "a".
Proof. split; reflexivity. Qed.

Example atob_raises : atob "<p>hi</p>" = None /\ atob "YWJjZ" = None /\ atob "Y=Q=" = None.
Proof. repeat split; reflexivity. Qed.

Example sandbox_tokens :
  Sandbox.tokens sandbox
  = ["allow-scripts"; "allow-same-origin"; "allow-forms"; "allow-popups";
     "allow-orientation-lock"; "allow-pointer-lock"; "allow-presentation";
     "allow-top-navigation"; "allow-top-navigation-by-user-activation"].
Proof. reflexivity. Qed.

Example sort_scenario :
  map Api.source (Array_sort compareRate Sample.offers3) = ["bc1q-second"; "bc1q-first"; "bc1q-third"]
  /\ map Api.source (Array_sort compareRate Sample.tied) = ["y"; "u"; "x"; "z"].
Proof. split; reflexivity. Qed.

(** ** The sort *)
Section SortFacts.

Implicit Types (a b d : Api.Dispenser) (l : list Api.Dispenser).

Lemma compareRate_le a b : Qle_bool (compareRate a b) 0 = true <-> by_rate a b.
Proof. unfold compareRate, by_rate. rewrite Qle_bool_iff. split; intros; lra. Qed.

Lemma compareRate_gt a b :
  Qle_bool (compareRate a b) 0 = false -> (Api.btcrate b < Api.btcrate a)%Q.
Proof.
  intros H. destruct (Qlt_le_dec (Api.btcrate b) (Api.btcrate a)) as [Hlt | Hle]; [done |].
  apply compareRate_le in Hle. congruence.
Qed.

Lemma place_perm a l : place compareRate a l ≡ₚ a :: l.
Proof.
  induction l as [| b l IH]; simpl; [done |].
  destruct (Qle_bool (compareRate a b) 0); [done |].
  rewrite IH. apply Permutation_swap.
Qed.

Lemma Array_sort_perm l : Array_sort compareRate l ≡ₚ l.
Proof.
  induction l as [| a l IH]; simpl; [done |].
  rewrite place_perm. by rewrite IH.
Qed.

Lemma place_sorted a l :
  StronglySorted by_rate l -> StronglySorted by_rate (place compareRate a l).
Proof.
  induction 1 as [| b l Hs IH Hall]; simpl.
  - repeat constructor.
  - destruct (Qle_bool (compareRate a b) 0) eqn:Hab.
    + apply compareRate_le in Hab. constructor.
      * by constructor.
      * constructor; [done |].
        eapply Forall_impl; [exact Hall |]. unfold by_rate in *. intros d Hd. simpl in *. lra.
    + apply compareRate_gt in Hab. constructor; [done |].
      rewrite place_perm. constructor; [| done].
      unfold by_rate. lra.
Qed.

Lemma Array_sort_sorted l : StronglySorted by_rate (Array_sort compareRate l).
Proof.
  induction l as [| a l IH]; simpl; [constructor |]. by apply place_sorted.
Qed.

(** Stability: the offers of any one rate come out in the order they
    went in. *)
Lemma place_filter r a l :
  List.filter (same_rate r) (place compareRate a l)
  = List.filter (same_rate r) (a :: l).
Proof.
  induction l as [| b l IH]; [done |].
  cbn [place]. destruct (Qle_bool (compareRate a b) 0) eqn:Hab; [done |].
  apply compareRate_gt in Hab.
  cbn [List.filter] in *. rewrite IH.
  unfold same_rate.
  destruct (Qeq_bool (Api.btcrate a) r) eqn:Ha, (Qeq_bool (Api.btcrate b) r) eqn:Hb; try done.
  apply Qeq_bool_eq in Ha, Hb. lra.
Qed.

Lemma Array_sort_stable r l :
  List.filter (same_rate r) (Array_sort compareRate l) = List.filter (same_rate r) l.
Proof.
  induction l as [| a l IH]; [done |].
  cbn [Array_sort foldr]. rewrite place_filter. cbn [List.filter].
  fold (Array_sort compareRate l). by rewrite IH.
Qed.

Lemma sorted_adjacent l i a b :
  StronglySorted by_rate l -> l !! i = Some a -> l !! S i = Some b -> by_rate a b.
Proof.
  intros Hs. revert i. induction Hs as [| c l Hs IH Hall]; intros i Ha Hb; [done |].
  destruct i as [| i]; simpl in *.
  - injection Ha as <-. rewrite Forall_forall in Hall. apply Hall.
    eapply list_elem_of_lookup_2. exact Hb.
  - eauto.
Qed.

Lemma Array_sort_nonempty l : l <> [] -> exists d, Array_sort compareRate l !! 0%nat = Some d.
Proof.
  intros Hl. destruct (Array_sort compareRate l) as [| d s] eqn:E; [| by exists d].
  pose proof (Array_sort_perm l) as Hp. rewrite E in Hp.
  apply Permutation_nil in Hp. done.
Qed.

End SortFacts.

(** ** How one event changes the world *)
Section Frames.

Implicit Types (w : World) (s : State).

Lemma state_commit w : state (commit w) = state w.
Proof. unfold commit. by destruct (render _ _). Qed.

Lemma pending_commit w : pending (commit w) = pending w.
Proof. unfold commit. by destruct (render _ _). Qed.

Lemma stampId_commit w : stampId (commit w) = stampId w.
Proof. unfold commit. by destruct (render _ _). Qed.

Lemma toasts_commit w : toasts (commit w) = toasts w.
Proof. unfold commit. by destruct (render _ _). Qed.

Lemma unmounted_commit w :
  unmounted w = false ->
  unmounted (commit w) = match render (stampId w) (state w) with Returns _ => false | Throws => true end.
Proof. unfold commit. by destruct (render _ _). Qed.

Lemma state_handleCopyAddress address w :
  state (handled (handleCopyAddress address w) w) = state w.
Proof. unfold handled, handleCopyAddress, writeText. by destruct (clipboardAccess w). Qed.

Lemma pending_handleCopyAddress address w :
  pending (handled (handleCopyAddress address w) w) = pending w.
Proof. unfold handled, handleCopyAddress, writeText. by destruct (clipboardAccess w). Qed.

Lemma stampId_handleCopyAddress address w :
  stampId (handled (handleCopyAddress address w) w) = stampId w.
Proof. unfold handled, handleCopyAddress, writeText. by destruct (clipboardAccess w). Qed.

Lemma state_onClick c w :
  state (onClick c w)
  = match c with
    | BuyArt => setIsFlipped true (state w)
    | Back => setIsFlipped false (state w)
    | MenuItem index => setSelectedDispenser (dispensers (state w) !! index) (state w)
    | CpidText | CopyIcon => state w
    end.
Proof.
  destruct c; simpl; try done.
  - destruct (stampData (state w)); [apply state_handleCopyAddress | done].
  - destruct (selectedDispenser (state w)); [apply state_handleCopyAddress | done].
Qed.

Lemma pending_onClick c w : pending (onClick c w) = pending w.
Proof.
  destruct c; simpl; try done.
  - destruct (stampData (state w)); [apply pending_handleCopyAddress | done].
  - destruct (selectedDispenser (state w)); [apply pending_handleCopyAddress | done].
Qed.

Lemma stampId_onClick c w : stampId (onClick c w) = stampId w.
Proof.
  destruct c; simpl; try done.
  - destruct (stampData (state w)); [apply stampId_handleCopyAddress | done].
  - destruct (selectedDispenser (state w)); [apply stampId_handleCopyAddress | done].
Qed.

Lemma settle_or_not e : (exists k r, e = Settle k r) \/ (forall k r, e <> Settle k r).
Proof. destruct e; eauto; by right. Qed.

Lemma step_mounted w e w' : step w e = Some w' -> unmounted w = false.
Proof. unfold step. by destruct (unmounted w). Qed.

Lemma step_SetStampId w id w' :
  step w (SetStampId id) = Some w' ->
  state w' = state w /\ stampId w' = id /\
  (id = stampId w /\ w' = w \/
   id <> stampId w /\ pending w' = pending w ++ [id]).
Proof.
  unfold step. destruct (unmounted w); [done |].
  destruct (String.eqb_spec id (stampId w)) as [-> | Hne]; intros [= <-].
  - auto.
  - rewrite state_commit, stampId_commit, pending_commit. simpl. auto.
Qed.

Lemma step_Settle w k r w' :
  step w (Settle k r) = Some w' ->
  (exists id, pending w !! k = Some id) /\
  pending w' = delete k (pending w) /\
  stampId w' = stampId w /\
  state w' = match r with
             | Fulfilled _ | FulfilledWithoutData => deriveDispensers (fetchData r (state w))
             | Rejected => fetchData r (state w)
             end.
Proof.
  unfold step. destruct (unmounted w); [done |].
  destruct (pending w !! k) as [id |] eqn:Hk; [| done]. intros [= <-].
  rewrite state_commit, stampId_commit, pending_commit.
  split; [by exists id |]. by destruct r.
Qed.

(** A click is possible only while the card is shown; the control it
    goes through, if any, is on the page. *)
Lemma step_Click w inside target w' :
  step w (Click inside target) = Some w' ->
  errorShown (state w) = None /\
  match inside with
  | Some c =>
      (exists v, render (stampId w) (state w) = Returns v /\ offers v c = true) /\
      state w' = handleClick (isFlipped (state w)) target (state (onClick c w))
  | None => state w' = handleClick (isFlipped (state w)) target (state w)
  end /\
  pending w' = pending w /\ stampId w' = stampId w.
Proof.
  unfold step. destruct (unmounted w); [done |].
  destruct (render (stampId w) (state w)) as [v |] eqn:Hr; [| done].
  destruct v as [m | modal flipped preview footer backTitle back]; [done |].
  assert (errorShown (state w) = None) as Herr.
  { unfold render in Hr. by destruct (errorShown (state w)). }
  destruct inside as [c |].
  - destruct (offers _ c) eqn:Ho; [| done]. intros [= <-].
    rewrite state_commit, pending_commit, stampId_commit. simpl.
    rewrite pending_onClick, stampId_onClick. eauto 10.
  - intros [= <-]. by rewrite state_commit, pending_commit, stampId_commit.
Qed.

Lemma step_CloseModal w w' :
  step w CloseModal = Some w' ->
  isDispenserOpen (state w) = true /\
  state w' = setIsDispenserOpen false (state w) /\
  pending w' = pending w /\ stampId w' = stampId w.
Proof.
  unfold step. destruct (unmounted w); [done |].
  destruct (render (stampId w) (state w)) as [v |] eqn:Hr; [| done].
  destruct v as [m | modal flipped preview footer backTitle back]; [done |].
  destruct modal; [| done]. intros [= <-].
  rewrite state_commit, pending_commit, stampId_commit. repeat split; try done.
  unfold render in Hr. destruct (errorShown (state w)); [done |].
  destruct (renderStampContent (state w)); by simplify_eq.
Qed.

Lemma step_ClipboardPermission w access w' :
  step w (ClipboardPermission access) = Some w' ->
  state w' = state w /\ pending w' = pending w /\ stampId w' = stampId w.
Proof. unfold step. destruct (unmounted w); [done |]. by intros [= <-]. Qed.

End Frames.

(** ** Invariants of the traces *)
Section Invariants.

Implicit Types (w : World) (s : State).

Lemma run_invariant (P : World -> Prop) :
  (forall w e w', P w -> step w e = Some w' -> P w') ->
  forall trace w w', P w -> run w trace = Some w' -> P w'.
Proof.
  intros Hstep. induction trace as [| e trace IH]; intros w w' Hw Hrun; simpl in Hrun.
  - by injection Hrun as <-.
  - destruct (step w e) as [w1 |] eqn:He; [| done]. eauto.
Qed.

Lemma run_app t1 t2 w :
  run w (t1 ++ t2) = match run w t1 with Some w1 => run w1 t2 | None => None end.
Proof.
  revert w. induction t1 as [| e t1 IH]; intros w; simpl; [done |].
  by destruct (step w e).
Qed.

(** Events other than the settling of a fetch leave the record, the
    flags of the fetch and the offer list alone. *)
Lemma step_keeps_record w e w' :
  step w e = Some w' ->
  (forall k r, e <> Settle k r) ->
  stampData (state w') = stampData (state w) /\
  loading (state w') = loading (state w) /\
  error (state w') = error (state w) /\
  dispensers (state w') = dispensers (state w).
Proof.
  intros Hs Hne. destruct e as [id | k r | inside target | | granted].
  - apply step_SetStampId in Hs as (-> & _). done.
  - by destruct (Hne k r).
  - apply step_Click in Hs as (_ & Hst & _).
    assert (forall s0, state w' = handleClick (isFlipped (state w)) target s0 ->
              stampData (state w') = stampData s0 /\ loading (state w') = loading s0 /\
              error (state w') = error s0 /\ dispensers (state w') = dispensers s0) as Hh.
    { intros s0 ->. unfold handleClick. by repeat case_match. }
    destruct inside as [c |].
    + destruct Hst as (_ & Hst). apply Hh in Hst. rewrite state_onClick in Hst.
      by destruct c.
    + by apply Hh.
  - apply step_CloseModal in Hs as (_ & -> & _). done.
  - apply step_ClipboardPermission in Hs as (-> & _). done.
Qed.

Lemma fetchData_fulfilled data s :
  let s' := deriveDispensers (fetchData (Fulfilled data) s) in
  stampData s' = Some data /\ loading s' = false /\ error s' = error s /\
  isFlipped s' = isFlipped s /\ isDispenserOpen s' = isDispenserOpen s /\
  (Api.dispensers data = [] ->
     dispensers s' = dispensers s /\ selectedDispenser s' = selectedDispenser s) /\
  (Api.dispensers data <> [] ->
     dispensers s' = Array_sort compareRate (Api.dispensers data) /\
     selectedDispenser s' = Array_sort compareRate (Api.dispensers data) !! 0%nat).
Proof.
  unfold deriveDispensers, fetchData. simpl.
  destruct (Api.dispensers data) as [| d l]; simpl; repeat split; done.
Qed.

Lemma fetchData_without_data s :
  let s' := deriveDispensers (fetchData FulfilledWithoutData s) in
  stampData s' = None /\ loading s' = false /\ error s' = error s /\
  isFlipped s' = isFlipped s /\ isDispenserOpen s' = isDispenserOpen s /\
  dispensers s' = dispensers s /\ selectedDispenser s' = selectedDispenser s.
Proof. done. Qed.

Lemma fetchData_rejected s :
  let s' := fetchData Rejected s in
  stampData s' = stampData s /\ loading s' = false /\
  error s' = Some "Failed to fetch stamp information." /\
  isFlipped s' = isFlipped s /\ isDispenserOpen s' = isDispenserOpen s /\
  dispensers s' = dispensers s /\ selectedDispenser s' = selectedDispenser s.
Proof. done. Qed.

(** The offer list on display is the sorted offer list of the last
    record that had offers; in particular of the current record when
    that has offers. *)
Lemma shown_is_sorted_record w :
  reachable w ->
  forall data, stampData (state w) = Some data -> Api.dispensers data <> [] ->
  dispensers (state w) = Array_sort compareRate (Api.dispensers data).
Proof.
  intros (id & trace & Hrun). pattern w.
  eapply run_invariant; [| | exact Hrun]; cbv beta; [| done].
  clear. intros w e w' IH Hs data Hd Hne.
  destruct (settle_or_not e) as [(k & r & ->) | Hui].
  - apply step_Settle in Hs as (_ & _ & _ & Hst). destruct r as [data' | |].
    + destruct (fetchData_fulfilled data' (state w)) as (Hd' & _ & _ & _ & _ & _ & Hsort).
      rewrite Hst in Hd. rewrite Hd' in Hd. injection Hd as ->.
      rewrite Hst. by apply Hsort.
    + rewrite Hst in *. by apply IH.
    + by rewrite Hst in Hd.
  - apply step_keeps_record in Hs as (Hd' & _ & _ & Hl); [| done].
    rewrite Hl. apply IH; [by rewrite <- Hd' | done].
Qed.

(** The selection is one of the offers on display, and is missing only
    when none is on display. *)
Lemma selection_among_shown w :
  reachable w ->
  (selectedDispenser (state w) = None <-> dispensers (state w) = []) /\
  (forall d, selectedDispenser (state w) = Some d -> d ∈ dispensers (state w)).
Proof.
  intros (id & trace & Hrun). pattern w.
  eapply run_invariant; [| | exact Hrun]; cbv beta; [| done].
  clear. intros w e w' IH Hs.
  destruct e as [id | k r | inside target | | granted].
  - apply step_SetStampId in Hs as (-> & _). done.
  - apply step_Settle in Hs as (_ & _ & _ & ->). destruct r as [data | |]; [| done | done].
    destruct (fetchData_fulfilled data (state w)) as (_ & _ & _ & _ & _ & Hnil & Hsome).
    destruct (decide (Api.dispensers data = [])) as [He | Hne].
    + destruct (Hnil He) as [-> ->]. done.
    + destruct (Hsome Hne) as [-> ->].
      destruct (Array_sort_nonempty _ Hne) as [d Hd]. rewrite Hd. split.
      * split; [done |]. intros E. by rewrite E in Hd.
      * intros d' [= <-]. by eapply list_elem_of_lookup_2.
  - apply step_Click in Hs as (_ & Hst & _).
    assert (forall s0, state w' = handleClick (isFlipped (state w)) target s0 ->
              dispensers (state w') = dispensers s0 /\
              selectedDispenser (state w') = selectedDispenser s0) as Hh.
    { intros s0 ->. unfold handleClick. by repeat case_match. }
    destruct inside as [c |].
    + destruct Hst as ((v & Hv & Ho) & Hst). apply Hh in Hst as [-> ->].
      rewrite state_onClick. destruct c; try done. simpl.
      (* a menu item: its index is within the list on display *)
      unfold render in Hv. destruct (errorShown (state w)); [by simplify_eq |].
      destruct (renderStampContent (state w)); [| done]. injection Hv as <-.
      simpl in Ho. unfold renderBack in Ho.
      destruct (length (dispensers (state w)) =? 0)%nat eqn:Hlen; [done |].
      apply bool_decide_eq_true in Ho. apply lookup_lt_is_Some in Ho as [d Hd].
      rewrite Hd. split.
      * split; [done |]. intros E. by rewrite E in Hd.
      * intros d' [= <-]. by eapply list_elem_of_lookup_2.
    + by apply Hh in Hst as [-> ->].
  - apply step_CloseModal in Hs as (_ & -> & _). done.
  - apply step_ClipboardPermission in Hs as (-> & _). done.
Qed.

End Invariants.

(** ** Offers and selection *)

(** C4. For every loaded record with a non-empty offer list, the offer
    list on display is the stable ascending sort of the fetched offers by
    rate: adjacent offers are in ascending order of rate, the list is a
    rearrangement of the fetched one, and the offers of any one rate keep
    the order in which they were fetched. *)
Theorem C4_shown_offers_stably_sorted id trace w data :
  run (mount id) trace = Some w ->
  stampData (state w) = Some data ->
  Api.dispensers data <> [] ->
  (forall i a b,
     dispensers (state w) !! i = Some a -> dispensers (state w) !! S i = Some b ->
     (Api.btcrate a <= Api.btcrate b)%Q) /\
  dispensers (state w) ≡ₚ Api.dispensers data /\
  (forall r,
     List.filter (same_rate r) (dispensers (state w))
     = List.filter (same_rate r) (Api.dispensers data)).
Proof.
  intros Hrun Hd Hne.
  rewrite (shown_is_sorted_record w (ex_intro _ id (ex_intro _ trace Hrun)) data Hd Hne).
  split; [| split].
  - intros i a b. apply sorted_adjacent, Array_sort_sorted.
  - apply Array_sort_perm.
  - intros r. apply Array_sort_stable.
Qed.

Lemma C4_witness :
  let trace := [Settle 0 (Fulfilled (Sample.png "A" Sample.tied))] in
  let w := Sample.after trace in
  run (mount "A") trace = Some w /\
  map Api.source (dispensers (state w)) = ["y"; "u"; "x"; "z"] /\
  (forall i a b,
     dispensers (state w) !! i = Some a -> dispensers (state w) !! S i = Some b ->
     (Api.btcrate a <= Api.btcrate b)%Q) /\
  dispensers (state w) ≡ₚ Sample.tied /\
  (forall r,
     List.filter (same_rate r) (dispensers (state w)) = List.filter (same_rate r) Sample.tied).
Proof.
  intros trace w. split; [reflexivity |]. split; [reflexivity |].
  apply (C4_shown_offers_stably_sorted "A" trace w (Sample.png "A" Sample.tied)).
  - reflexivity.
  - reflexivity.
  - discriminate.
Defined.

(** Scenario 5 of the specification: offers rated 0.002, 0.0015 and 0.003
    are shown as 0.0015, 0.002, 0.003 and the 0.0015 offer is selected. *)
Example scenario_three_offers :
  let w := Sample.after [Settle 0 (Fulfilled (Sample.png "A" Sample.offers3))] in
  map Api.btcrate (dispensers (state w)) = [0.0015; 0.002; 0.003]%Q /\
  selectedDispenser (state w) = Some (Sample.offer "bc1q-second" 0.0015).
Proof. split; reflexivity. Qed.

(** C3, as the code has it. In every reachable state the selection is
    empty if and only if the offer list on display is empty, and a
    selection is a member of the offer list on display; every load of a
    record that has offers puts that record's sorted offers on display and
    selects the first of them, whose rate is the lowest. *)
Theorem C3_selection_among_shown_offers id trace w :
  run (mount id) trace = Some w ->
  (selectedDispenser (state w) = None <-> dispensers (state w) = []) /\
  (forall d, selectedDispenser (state w) = Some d -> d ∈ dispensers (state w)) /\
  (forall k data w',
     step w (Settle k (Fulfilled data)) = Some w' ->
     Api.dispensers data <> [] ->
     dispensers (state w') = Array_sort compareRate (Api.dispensers data) /\
     exists d,
       selectedDispenser (state w') = Some d /\
       dispensers (state w') !! 0%nat = Some d /\
       d ∈ Api.dispensers data /\
       forall x, x ∈ Api.dispensers data -> (Api.btcrate d <= Api.btcrate x)%Q).
Proof.
  intros Hrun.
  destruct (selection_among_shown w (ex_intro _ id (ex_intro _ trace Hrun))) as [Hiff Hin].
  split; [done |]. split; [done |].
  intros k data w' Hs Hne.
  apply step_Settle in Hs as (_ & _ & _ & ->).
  destruct (fetchData_fulfilled data (state w)) as (_ & _ & _ & _ & _ & _ & Hsome).
  destruct (Hsome Hne) as [-> ->]. split; [done |].
  destruct (Array_sort_nonempty _ Hne) as [d Hd]. exists d.
  split; [done |]. split; [done |].
  pose proof (Array_sort_perm (Api.dispensers data)) as Hp.
  pose proof (Array_sort_sorted (Api.dispensers data)) as Hs.
  destruct (Array_sort compareRate (Api.dispensers data)) as [| d0 rest]; [done |].
  injection Hd as ->. split.
  - rewrite <- Hp. by left.
  - intros x Hx. rewrite <- Hp in Hx. apply StronglySorted_inv in Hs as [_ Hall].
    apply elem_of_cons in Hx as [-> | Hx]; [lra |].
    rewrite Forall_forall in Hall. by apply Hall.
Qed.

Lemma C3_witness :
  let trace := [Settle 0 (Fulfilled (Sample.png "A" Sample.offers3)); Click (Some (MenuItem 2)) Sample.button] in
  let w := Sample.after trace in
  run (mount "A") trace = Some w /\
  selectedDispenser (state w) = Some (Sample.offer "bc1q-third" 0.003) /\
  (selectedDispenser (state w) = None <-> dispensers (state w) = []) /\
  (forall d, selectedDispenser (state w) = Some d -> d ∈ dispensers (state w)).
Proof.
  intros trace w. split; [reflexivity |]. split; [reflexivity |].
  destruct (C3_selection_among_shown_offers "A" trace w) as (H1 & H2 & _).
  - reflexivity.
  - split; assumption.
Defined.

(** C3 as stated fails. Record "A" loads with three offers; the
    identifier changes to "B", whose record has no offer. The selection
    is then not empty although the current record's offer list is, and
    the offers of "A" are still on display under "B". *)
Lemma C3_counterexample :
  let recordA := Sample.png "A" Sample.offers3 in
  let recordB := Sample.png "B" [] in
  exists w,
    run (mount "A") [Settle 0 (Fulfilled recordA); SetStampId "B"; Settle 0 (Fulfilled recordB)]
    = Some w /\
    stampId w = "B" /\
    stampData (state w) = Some recordB /\
    Api.dispensers recordB = [] /\
    selectedDispenser (state w) = Some (Sample.offer "bc1q-second" 0.0015) /\
    dispensers (state w) = Array_sort compareRate (Api.dispensers recordA) /\
    ~ (selectedDispenser (state w) = None <-> Api.dispensers recordB = []).
Proof.
  intros recordA recordB. eexists. split; [reflexivity |].
  repeat split; try reflexivity.
  intros [_ H]. specialize (H eq_refl). discriminate H.
Qed.

(** ** Fetches and identifier changes *)
Section Requests.

Implicit Types (w : World) (trace : list Event).

Lemma step_keeps_requests w e w' :
  step w e = Some w' ->
  (forall k r, e <> Settle k r) -> (forall id, e <> SetStampId id) ->
  pending w' = pending w /\ stampId w' = stampId w.
Proof.
  intros Hs Hne1 Hne2. destruct e as [id | k r | inside target | | granted].
  - by destruct (Hne2 id).
  - by destruct (Hne1 k r).
  - by apply step_Click in Hs as (_ & _ & -> & ->).
  - by apply step_CloseModal in Hs as (_ & _ & -> & ->).
  - by apply step_ClipboardPermission in Hs as (_ & -> & ->).
Qed.

(** Every fulfilled fetch overwrites the record, so the record on
    display is the one that arrived last. *)
Lemma shown_is_last_fulfilled trace w w' :
  run w trace = Some w' ->
  stampData (state w') = last_fulfilled trace (stampData (state w)).
Proof.
  revert w. induction trace as [| e trace IH]; intros w Hrun; simpl in Hrun.
  - by injection Hrun as <-.
  - destruct (step w e) as [w1 |] eqn:He; [| done].
    rewrite (IH _ Hrun). clear IH Hrun.
    destruct (settle_or_not e) as [(k & r & ->) | Hui].
    + apply step_Settle in He as (_ & _ & _ & ->). destruct r as [data | |]; simpl.
      * by destruct (fetchData_fulfilled data (state w)) as (-> & _).
      * done.
      * done.
    + apply step_keeps_record in He as (-> & _); [| done].
      by destruct e as [| k r | | |]; [| destruct (Hui k r) | | |].
Qed.

Lemma up_to_date_mount id : up_to_date (mount id).
Proof. split; [done |]. by intros _. Qed.

Lemma up_to_date_step w e w' :
  up_to_date w -> in_order [e] = true -> answers w e = true ->
  step w e = Some w' -> up_to_date w'.
Proof.
  intros [Hdone Hlast] Hord Hans Hs.
  destruct e as [id | k r | inside target | | granted].
  - apply step_SetStampId in Hs as (Hst & Hid & [[-> ->] | [Hne Hp]]); [done |].
    split; rewrite Hp.
    + intros E. by apply app_eq_nil in E as [_ ?].
    + intros _. by rewrite last_snoc, Hid.
  - simpl in Hord. rewrite andb_true_r in Hord. apply Nat.eqb_eq in Hord as ->.
    pose proof Hs as Hs'.
    apply step_Settle in Hs' as ((id & Hk) & Hp & Hid & Hst).
    destruct (pending w) as [| i rest] eqn:Hpw; [done |].
    simpl in Hk, Hp. injection Hk as ->.
    assert (rest <> [] -> last rest = Some (stampId w')) as Hrest.
    { intros Hne. rewrite Hid, <- Hlast; [| done]. rewrite last_cons.
      destruct (last rest) eqn:E; [done |]. by apply last_None in E. }
    split; rewrite Hp; [| done]. intros -> Herr.
    specialize (Hlast ltac:(done)). injection Hlast as Hlast.
    destruct r as [data | |].
    + exists data. destruct (fetchData_fulfilled data (state w)) as (Hd & _).
      rewrite Hst, Hd. split; [done |].
      simpl in Hans. rewrite Hpw in Hans. simpl in Hans.
      apply String.eqb_eq in Hans. congruence.
    + by rewrite Hst in Herr.
    + done.
  - pose proof (step_keeps_record _ _ _ Hs ltac:(done)) as (Hd & _ & He & _).
    pose proof (step_keeps_requests _ _ _ Hs ltac:(done) ltac:(done)) as (Hp & Hi).
    unfold up_to_date. by rewrite Hd, He, Hp, Hi.
  - pose proof (step_keeps_record _ _ _ Hs ltac:(done)) as (Hd & _ & He & _).
    pose proof (step_keeps_requests _ _ _ Hs ltac:(done) ltac:(done)) as (Hp & Hi).
    unfold up_to_date. by rewrite Hd, He, Hp, Hi.
  - pose proof (step_keeps_record _ _ _ Hs ltac:(done)) as (Hd & _ & He & _).
    pose proof (step_keeps_requests _ _ _ Hs ltac:(done) ltac:(done)) as (Hp & Hi).
    unfold up_to_date. by rewrite Hd, He, Hp, Hi.
Qed.

Lemma up_to_date_run trace w w' :
  up_to_date w -> in_order trace = true -> honest w trace = true ->
  run w trace = Some w' -> up_to_date w'.
Proof.
  revert w. induction trace as [| e trace IH]; intros w Hw Hord Hh Hrun; simpl in *.
  - by injection Hrun as <-.
  - destruct (step w e) as [w1 |] eqn:He; [| done].
    apply andb_prop in Hord as [He1 Hord], Hh as [Ha Hh].
    apply (IH w1); try done.
    apply (up_to_date_step w e w1); try done. simpl. by rewrite He1.
Qed.

End Requests.

(** C1, as the code has it. The record on display is the one brought by
    the fulfilled fetch that arrived last, whichever identifier that fetch
    was started for: [fetchData] applies every response. It is the record
    of the most recently requested identifier when the responses arrive
    in the order of the requests, once no fetch is pending and none has
    failed. *)
Theorem C1_last_response_wins id trace w :
  run (mount id) trace = Some w ->
  stampData (state w) = last_fulfilled trace None /\
  (in_order trace = true -> honest (mount id) trace = true ->
   pending w = [] -> error (state w) = None ->
   exists data, stampData (state w) = Some data /\ Api.cpid (Api.stamp data) = stampId w).
Proof.
  intros Hrun. split.
  - apply (shown_is_last_fulfilled trace (mount id) w Hrun).
  - intros Hord Hh Hp Herr.
    destruct (up_to_date_run trace (mount id) w (up_to_date_mount id) Hord Hh Hrun) as [H _].
    by apply H.
Qed.

Lemma C1_witness :
  let trace := [SetStampId "B"; Settle 0 (Fulfilled (Sample.png "A" []));
                Settle 0 (Fulfilled (Sample.png "B" []))] in
  let w := Sample.after trace in
  run (mount "A") trace = Some w /\
  stampData (state w) = Some (Sample.png "B" []) /\
  exists data, stampData (state w) = Some data /\ Api.cpid (Api.stamp data) = stampId w.
Proof.
  intros trace w. split; [reflexivity |].
  destruct (C1_last_response_wins "A" trace w) as [H1 H2].
  - reflexivity.
  - split; [exact H1 |]. apply H2; reflexivity.
Defined.

(** C1 as stated fails (scenario 7 of the specification). The fetch for
    "A" is pending when the identifier changes to "B"; the response for
    "B" arrives first, the response for "A" after it. Both responses are
    honest. The card then shows the record of "A" under identifier "B". *)
Lemma C1_counterexample :
  let recordA := Sample.png "A" [] in
  let recordB := Sample.png "B" [] in
  let trace := [SetStampId "B"; Settle 1 (Fulfilled recordB); Settle 0 (Fulfilled recordA)] in
  honest (mount "A") trace = true /\
  exists w,
    run (mount "A") trace = Some w /\
    stampId w = "B" /\
    pending w = [] /\
    stampData (state w) = Some recordA /\
    Api.cpid (Api.stamp recordA) <> stampId w /\
    exists preview, render (stampId w) (state w)
      = Returns (CardView false false preview (FooterDetails "A") "B" NoDispensers).
Proof.
  intros recordA recordB trace. split; [reflexivity |].
  eexists. split; [reflexivity |]. repeat split; try reflexivity.
  - discriminate.
  - eexists. reflexivity.
Qed.

(** ** Failure and loading *)
Section Lifecycle.

Implicit Types (w : World) (s : State).

Lemma render_failed id s :
  error s = Some "Failed to fetch stamp information." -> render id s = failedView.
Proof. unfold render, errorShown. by intros ->. Qed.

(** No code path clears [error]. *)
Lemma error_stays w e w' :
  step w e = Some w' ->
  error (state w) = Some "Failed to fetch stamp information." ->
  error (state w') = Some "Failed to fetch stamp information.".
Proof.
  intros Hs Herr.
  destruct (settle_or_not e) as [(k & r & ->) | Hui].
  - apply step_Settle in Hs as (_ & _ & _ & ->). destruct r as [data | |]; [| done | done].
    destruct (fetchData_fulfilled data (state w)) as (_ & _ & -> & _). done.
  - apply step_keeps_record in Hs as (_ & _ & -> & _); done.
Qed.

(** No code path sets [loading] back to [true]. *)
Lemma loading_stays_false w e w' :
  step w e = Some w' -> loading (state w) = false -> loading (state w') = false.
Proof.
  intros Hs Hl.
  destruct (settle_or_not e) as [(k & r & ->) | Hui].
  - apply step_Settle in Hs as (_ & _ & _ & ->). destruct r as [data | |]; [| done | done].
    by destruct (fetchData_fulfilled data (state w)) as (_ & -> & _).
  - apply step_keeps_record in Hs as (_ & -> & _); done.
Qed.

Lemma no_skeleton s : loading s = false -> renderStampContent s <> Returns Skeleton.
Proof. unfold renderStampContent. intros ->. by repeat case_match. Qed.

Lemma no_click_on_error w inside target :
  (exists m, render (stampId w) (state w) = Returns (ErrorText m)) ->
  step w (Click inside target) = None /\ step w CloseModal = None.
Proof. intros [m Hm]. unfold step. rewrite Hm. by destruct (unmounted w). Qed.

End Lifecycle.

(** C5, as the code has it. When a fetch is rejected the card goes to the
    Failed state ([error] set, [loading] cleared): only the error text is
    rendered, so that no click on the card and no closing of the modal can
    happen; no fetch is started in response to the failure; and the Failed
    state is never left: after any further events, changes of identifier
    and fulfilled fetches included, the error text is still what is
    rendered. *)
Theorem C5_fetch_failure_is_final w k w' :
  step w (Settle k Rejected) = Some w' ->
  error (state w') = Some "Failed to fetch stamp information." /\
  loading (state w') = false /\
  render (stampId w') (state w') = failedView /\
  pending w' = delete k (pending w) /\
  (forall inside target, step w' (Click inside target) = None) /\
  step w' CloseModal = None /\
  (forall trace w'', run w' trace = Some w'' ->
     render (stampId w'') (state w'') = failedView).
Proof.
  intros Hs. apply step_Settle in Hs as (_ & Hp & _ & Hst).
  assert (error (state w') = Some "Failed to fetch stamp information.") as Herr
    by by rewrite Hst.
  pose proof (render_failed (stampId w') (state w') Herr) as Hr.
  split; [done |]. split; [by rewrite Hst |].
  split; [done |]. split; [done |]. split; [| split].
  - intros inside target. apply no_click_on_error. by eexists.
  - apply (no_click_on_error w' None Sample.div). by eexists.
  - intros trace w'' Hrun. apply render_failed.
    pattern w''. eapply run_invariant; [| exact Herr | exact Hrun].
    intros w1 e w2 H1 H2. by apply (error_stays w1 e w2).
Qed.

Lemma C5_witness :
  let w' := Sample.after [Settle 0 Rejected] in
  step (mount "A") (Settle 0 Rejected) = Some w' /\
  render (stampId w') (state w') = failedView /\
  pending w' = [] /\
  step w' (Click (Some Back) Sample.button) = None.
Proof.
  intros w'. split; [reflexivity |].
  destruct (C5_fetch_failure_is_final (mount "A") 0 w') as (_ & _ & H1 & H2 & H3 & _).
  - reflexivity.
  - split; [exact H1 |]. split; [exact H2 |]. apply H3.
Defined.

(** C5 as stated fails in its last part. The fetch for "A" is rejected;
    the identifier changes to "B" and the fetch for "B" is fulfilled. The
    record of "B" is stored but the card still renders the error text
    alone. *)
Lemma C5_counterexample :
  let recordB := Sample.png "B" Sample.offers3 in
  exists w,
    run (mount "A") [Settle 0 Rejected; SetStampId "B"; Settle 0 (Fulfilled recordB)] = Some w /\
    stampId w = "B" /\
    pending w = [] /\
    stampData (state w) = Some recordB /\
    render (stampId w) (state w) = Returns (ErrorText "Failed to fetch stamp information.").
Proof. intros recordB. eexists. repeat split; reflexivity. Qed.

(** C10. Once a fetch has settled, fulfilled or rejected, [loading] is
    [false] and stays so whatever happens next: the preview is never again
    the loading placeholder, and a change of identifier leaves the whole
    component state, and with it the preview of the previous record, as
    it is while the new fetch is pending. *)
Theorem C10_loading_never_returns w k r w' :
  step w (Settle k r) = Some w' ->
  loading (state w') = false /\
  forall trace w2, run w' trace = Some w2 ->
    loading (state w2) = false /\
    renderStampContent (state w2) <> Returns Skeleton /\
    forall id w3, step w2 (SetStampId id) = Some w3 ->
      state w3 = state w2 /\
      renderStampContent (state w3) = renderStampContent (state w2) /\
      (id <> stampId w2 -> pending w3 = pending w2 ++ [id]).
Proof.
  intros Hs. apply step_Settle in Hs as (_ & _ & _ & Hst).
  assert (loading (state w') = false) as Hl.
  { rewrite Hst. destruct r as [data | |]; [| done | done].
    by destruct (fetchData_fulfilled data (state w)) as (_ & -> & _). }
  split; [done |]. intros trace w2 Hrun.
  assert (loading (state w2) = false) as Hl2.
  { pattern w2. eapply run_invariant; [| exact Hl | exact Hrun].
    intros w1 e w1' H1 H2. by apply (loading_stays_false w1 e w1'). }
  split; [done |]. split; [by apply no_skeleton |].
  intros id w3 Hid. apply step_SetStampId in Hid as (Hs3 & _ & Hcase).
  split; [done |]. split; [by rewrite Hs3 |].
  intros Hne. by destruct Hcase as [[? _] | [_ ?]].
Qed.

Lemma C10_witness :
  let record := Sample.png "A" Sample.offers3 in
  let w' := Sample.after [Settle 0 (Fulfilled record)] in
  let w3 := Sample.after [Settle 0 (Fulfilled record); SetStampId "B"] in
  step (mount "A") (Settle 0 (Fulfilled record)) = Some w' /\
  loading (state w') = false /\
  pending w3 = ["B"] /\
  renderStampContent (state w3)
  = Returns (Image (convertBase64ToImage "iVBORw0KGgo=" "image/png")).
Proof.
  intros record w' w3. split; [reflexivity |].
  destruct (C10_loading_never_returns (mount "A") 0 (Fulfilled record) w') as [H1 H2].
  - reflexivity.
  - split; [exact H1 |].
    destruct (H2 [] w' eq_refl) as (_ & _ & H3).
    destruct (H3 "B" w3) as (_ & H4 & H5); [reflexivity |].
    split; [apply H5; discriminate |]. rewrite H4. reflexivity.
Defined.

(** ** Flip orientation and modal *)
Section Flip.

Implicit Types (w : World) (s : State).

Lemma longer_differs (c : ascii) (id : string) : String c id <> id.
Proof. intros E. apply (f_equal String.length) in E. simpl in E. lia. Qed.

Lemma handleClick_flip seen target s :
  isFlipped (handleClick seen target s)
  = if isHTMLElement target && negb (includes interactiveElements (tagName target))
    then negb seen else isFlipped s.
Proof.
  unfold handleClick.
  by destruct (isHTMLElement target), (includes interactiveElements (tagName target)).
Qed.

Lemma handleClick_modal seen target s :
  isDispenserOpen (handleClick seen target s) = isDispenserOpen s.
Proof. unfold handleClick. by repeat case_match. Qed.

Lemma tap_possible w modal flipped preview footer backTitle back target :
  unmounted w = false ->
  render (stampId w) (state w) = Returns (CardView modal flipped preview footer backTitle back) ->
  exists w', step w (Click None target) = Some w'.
Proof. intros Hu Hr. unfold step. rewrite Hu, Hr. eauto. Qed.

End Flip.

(** C7, as the code has it. The card starts on its front with the modal
    closed. There is no terminal state: while the component is mounted
    some event can always happen and change the world, and whenever the
    card is shown a tap on it turns it over. A change of identifier
    leaves orientation and modal flag as they are: nothing sets them back
    to their initial values. *)
Theorem C7_view_machine :
  (forall id, isFlipped (state (mount id)) = false /\ isDispenserOpen (state (mount id)) = false) /\
  (forall w, unmounted w = false -> exists e w', step w e = Some w' /\ w' <> w) /\
  (forall w modal flipped preview footer backTitle back,
     unmounted w = false ->
     render (stampId w) (state w) = Returns (CardView modal flipped preview footer backTitle back) ->
     exists w', step w (Click None {| isHTMLElement := true; tagName := "DIV" |}) = Some w' /\
                isFlipped (state w') = negb (isFlipped (state w))) /\
  (forall w id w',
     step w (SetStampId id) = Some w' ->
     isFlipped (state w') = isFlipped (state w) /\
     isDispenserOpen (state w') = isDispenserOpen (state w)).
Proof.
  split; [done |]. split; [| split].
  - intros w Hu. exists (SetStampId (String "x" (stampId w))).
    destruct (step w (SetStampId (String "x" (stampId w)))) as [w' |] eqn:Hs.
    + exists w'. split; [done |]. apply step_SetStampId in Hs as (_ & Hid & _).
      intros ->. symmetry in Hid. by apply longer_differs in Hid.
    + unfold step in Hs. rewrite Hu in Hs. by case_match.
  - intros w modal flipped preview footer backTitle back Hu Hr.
    destruct (tap_possible w _ _ _ _ _ _ {| isHTMLElement := true; tagName := "DIV" |} Hu Hr)
      as [w' Hs].
    exists w'. split; [done |].
    apply step_Click in Hs as (_ & -> & _). by rewrite handleClick_flip.
  - intros w id w' Hs. by apply step_SetStampId in Hs as (-> & _).
Qed.

Lemma C7_witness :
  let w := Sample.after [Click None Sample.div] in
  isFlipped (state (mount "A")) = false /\
  isFlipped (state w) = true /\
  isFlipped (state (Sample.after [Click None Sample.div; SetStampId "B"])) = isFlipped (state w).
Proof.
  intros w. destruct C7_view_machine as (H1 & _ & _ & H4).
  split; [apply H1 |]. split; [reflexivity |].
  apply (H4 w "B"). reflexivity.
Defined.

(** C7 as stated fails in its last part. The card is turned over by a tap
    and then the identifier changes to "B": the card stays on its back. *)
Lemma C7_counterexample :
  exists w,
    run (mount "A") [Click None Sample.div; SetStampId "B"] = Some w /\
    stampId w = "B" /\
    isFlipped (state w) = true /\
    isFlipped (state w) <> isFlipped (state (mount "B")).
Proof. eexists. repeat split; try reflexivity. discriminate. Qed.

(** C8, as the code has it. A click whose target is an HTML element other
    than a button, input, select, textarea or link turns the card over
    exactly once. On a click whose target is one of these, [handleClick]
    does not touch the orientation; the orientation is then what the
    clicked control's own handler makes it: back for the Buy button, front
    for the Back button, unchanged for every other control. *)
Theorem C8_click_and_orientation w inside target w' :
  step w (Click inside target) = Some w' ->
  (isHTMLElement target = true ->
   includes interactiveElements (tagName target) = false ->
   isFlipped (state w') = negb (isFlipped (state w))) /\
  (includes interactiveElements (tagName target) = true ->
   isFlipped (state w') = match inside with
                          | Some BuyArt => true
                          | Some Back => false
                          | _ => isFlipped (state w)
                          end).
Proof.
  intros Hs. apply step_Click in Hs as (_ & Hst & _).
  assert (exists s0, state w' = handleClick (isFlipped (state w)) target s0 /\
            isFlipped s0 = match inside with
                           | Some BuyArt => true
                           | Some Back => false
                           | _ => isFlipped (state w)
                           end) as (s0 & -> & Hs0).
  { destruct inside as [c |].
    - destruct Hst as [_ Hst]. eexists. split; [exact Hst |].
      rewrite state_onClick. by destruct c.
    - by eexists. }
  rewrite handleClick_flip. split.
  - by intros -> ->.
  - intros ->. by rewrite andb_false_r.
Qed.

Lemma C8_witness :
  let loaded := Sample.after [Settle 0 (Fulfilled (Sample.png "A" Sample.offers3))] in
  let tapped := Sample.after [Settle 0 (Fulfilled (Sample.png "A" Sample.offers3));
                              Click None Sample.div] in
  let picked := Sample.after [Settle 0 (Fulfilled (Sample.png "A" Sample.offers3));
                              Click (Some (MenuItem 1)) Sample.button] in
  step loaded (Click None Sample.div) = Some tapped /\
  isFlipped (state tapped) = negb (isFlipped (state loaded)) /\
  step loaded (Click (Some (MenuItem 1)) Sample.button) = Some picked /\
  isFlipped (state picked) = isFlipped (state loaded).
Proof.
  intros loaded tapped picked.
  split; [reflexivity |]. split.
  - apply (C8_click_and_orientation loaded None Sample.div tapped); reflexivity.
  - split; [reflexivity |].
    apply (C8_click_and_orientation loaded (Some (MenuItem 1)) Sample.button picked); reflexivity.
Defined.

(** C8 as stated fails in its second part. The record is loaded and the
    card shows its front; a click on the Buy button, whose target is the
    BUTTON element itself, turns the card to its back. *)
Lemma C8_counterexample :
  let loaded := Sample.after [Settle 0 (Fulfilled (Sample.png "A" Sample.offers3))] in
  includes interactiveElements (tagName Sample.button) = true /\
  isFlipped (state loaded) = false /\
  exists w',
    step loaded (Click (Some BuyArt) Sample.button) = Some w' /\
    isFlipped (state w') = true /\
    isFlipped (state w') <> isFlipped (state loaded).
Proof.
  intros loaded. split; [reflexivity |]. split; [reflexivity |].
  eexists. split; [reflexivity |]. split; [reflexivity | discriminate].
Qed.

(** ** Copying an address *)
Section Copy.

Implicit Types (w : World).

Lemma toasts_handleCopyAddress address w :
  toasts (handled (handleCopyAddress address w) w)
  = toasts w ++ match clipboardAccess w with
                | Absent => []
                | Refused | Granted => [copiedToast]
                end.
Proof.
  unfold handled, handleCopyAddress, writeText.
  destruct (clipboardAccess w); simpl; by rewrite ?app_nil_r.
Qed.

Lemma toasts_withState f w : toasts (withState f w) = toasts w.
Proof. done. Qed.

Lemma clipboard_commit w : clipboard (commit w) = clipboard w.
Proof. unfold commit. by destruct (render _ _). Qed.

Lemma uncaughtErrors_commit w : uncaughtErrors (commit w) = uncaughtErrors w.
Proof. unfold commit. by destruct (render _ _). Qed.


End Copy.




(** Scenario 9 of the specification: the same address copied twice. *)
Example scenario_copy_twice :
  let w := Sample.after [Settle 0 (Fulfilled (Sample.png "A" Sample.offers3));
                         Click (Some CopyIcon) Sample.svg; Click (Some CopyIcon) Sample.svg] in
  toasts w = [copiedToast; copiedToast] /\ clipboard w = Some "bc1q-second" /\
  isFlipped (state w) = false.
Proof. repeat split; reflexivity. Qed.

(** ** The preview *)
Section Preview.

Implicit Types (w : World) (s : State).

Lemma image_is_not_html m : String.prefix "image/" m = true -> String.eqb m "text/html" = false.
Proof.
  intros Hp. destruct (String.eqb_spec m "text/html") as [-> | Hne]; [| done].
  by vm_compute in Hp.
Qed.

(** [renderStampContent] once a record is loaded: a function of the
    declared content type, and of [atob] for markup. *)
Lemma renderStampContent_loaded s data :
  loading s = false -> stampData s = Some data ->
  let st := Api.stamp data in
  renderStampContent s
  = match Api.stamp_mimetype st with
    | Some mimetype =>
        if String.eqb mimetype "text/html" then
          match atob (Api.stamp_base64 st) with
          | Some htmlContent => Returns (Iframe (styleContent +:+ htmlContent) sandbox)
          | None => Throws
          end
        else if String.prefix "image/" mimetype then
          Returns (Image (convertBase64ToImage (Api.stamp_base64 st) mimetype))
        else
          Returns (Image (if truthy (Api.stamp_url st) then Api.stamp_url st else "AZlogo.webp"))
    | None => Throws
    end.
Proof. unfold renderStampContent. by intros -> ->. Qed.



Lemma settle_unmounted w k r w' :
  step w (Settle k r) = Some w' ->
  unmounted w' = match render (stampId w') (state w') with
                 | Returns _ => false
                 | Throws => true
                 end.
Proof.
  unfold step. destruct (unmounted w) eqn:Hu; [done |].
  destruct (pending w !! k); [| done]. intros [= <-].
  rewrite stampId_commit, state_commit. apply unmounted_commit. by destruct r.
Qed.

Lemma render_returns id s preview :
  renderStampContent s = Returns preview -> exists v, render id s = Returns v.
Proof. intros Hp. unfold render. rewrite Hp. destruct (errorShown s); eauto. Qed.

End Preview.

(** C6, as the code has it. Loading a record stores it, clears [loading]
    and never sets [error]. The preview is decided by the declared content
    type and, for markup only, by whether [atob] accepts the payload. A
    content type that is there but is neither text/html nor image/... (the
    empty one included) takes the fallback path, remote URL when it is not
    empty and the built-in placeholder otherwise. A record declared
    image/... is always shown through a data URL built from the payload as
    it came. A record declared text/html whose payload is base64 is shown
    in the iframe. In these three cases the component stays mounted. A
    record declared text/html whose payload [atob] rejects, and a record
    without any content type, do not take the fallback path: the render
    raises, and the component is removed unless the error text is what is
    being shown. *)
Theorem C6_preview_by_declared_type w k data w' :
  step w (Settle k (Fulfilled data)) = Some w' ->
  let st := Api.stamp data in
  stampData (state w') = Some data /\
  loading (state w') = false /\
  error (state w') = error (state w) /\
  (forall mimetype,
     Api.stamp_mimetype st = Some mimetype ->
     mimetype <> "text/html" ->
     String.prefix "image/" mimetype = false ->
     renderStampContent (state w')
     = Returns (Image (if truthy (Api.stamp_url st) then Api.stamp_url st else "AZlogo.webp")) /\
     unmounted w' = false) /\
  (forall mimetype,
     Api.stamp_mimetype st = Some mimetype ->
     String.prefix "image/" mimetype = true ->
     renderStampContent (state w')
     = Returns (Image (convertBase64ToImage (Api.stamp_base64 st) mimetype)) /\
     unmounted w' = false) /\
  (forall htmlContent,
     Api.stamp_mimetype st = Some "text/html" ->
     atob (Api.stamp_base64 st) = Some htmlContent ->
     renderStampContent (state w') = Returns (Iframe (styleContent +:+ htmlContent) sandbox) /\
     unmounted w' = false) /\
  (Api.stamp_mimetype st = Some "text/html" ->
   atob (Api.stamp_base64 st) = None ->
   renderStampContent (state w') = Throws /\
   (unmounted w' = true <-> errorShown (state w) = None)) /\
  (Api.stamp_mimetype st = None ->
   renderStampContent (state w') = Throws /\
   (unmounted w' = true <-> errorShown (state w) = None)).
Proof.
  intros Hs st.
  pose proof (settle_unmounted _ _ _ _ Hs) as Hu.
  apply step_Settle in Hs as (_ & _ & _ & Hst).
  destruct (fetchData_fulfilled data (state w)) as (Hd & Hl & He & _).
  rewrite <- Hst in Hd, Hl, He.
  pose proof (renderStampContent_loaded (state w') data Hl Hd) as Hr. cbv zeta in Hr. fold st in Hr.
  assert (forall preview, renderStampContent (state w') = Returns preview -> unmounted w' = false) as Hok.
  { intros preview Hp. destruct (render_returns (stampId w') _ _ Hp) as [v Hv]. by rewrite Hu, Hv. }
  assert (renderStampContent (state w') = Throws ->
          (unmounted w' = true <-> errorShown (state w) = None)) as Hko.
  { intros Ht. rewrite Hu. unfold render. rewrite Ht.
    assert (errorShown (state w') = errorShown (state w)) as -> by (unfold errorShown; by rewrite He).
    by destruct (errorShown (state w)). }
  split; [done |]. split; [done |]. split; [done |].
  split; [| split; [| split; [| split]]].
  - intros m Hm Hne Hni. apply String.eqb_neq in Hne. rewrite Hm, Hne, Hni in Hr. eauto.
  - intros m Hm Hi. rewrite Hm, (image_is_not_html _ Hi), Hi in Hr. eauto.
  - intros htmlContent Hm Ha. rewrite Hm, Ha in Hr. simpl in Hr. eauto.
  - intros Hm Ha. rewrite Hm, Ha in Hr. simpl in Hr. eauto.
  - intros Hm. rewrite Hm in Hr. eauto.
Qed.

Lemma C6_witness :
  let record := {| Api.stamp := {| Api.cpid := "A"; Api.stamp_mimetype := Some "";
                                   Api.stamp_base64 := "AAAA"; Api.stamp_url := "" |};
                   Api.dispensers := [] |} in
  let w' := Sample.after [Settle 0 (Fulfilled record)] in
  step (mount "A") (Settle 0 (Fulfilled record)) = Some w' /\
  error (state w') = None /\
  renderStampContent (state w') = Returns (Image "AZlogo.webp") /\
  unmounted w' = false.
Proof.
  intros record w'. split; [reflexivity |].
  destruct (C6_preview_by_declared_type (mount "A") 0 record w') as (_ & _ & H3 & H4 & _).
  - reflexivity.
  - split; [exact H3 |]. apply (H4 ""); [reflexivity | discriminate | reflexivity].
Defined.

(** C6 as stated fails for a payload that cannot be decoded and for a
    missing content type. A record declared text/html whose payload is not
    base64 does not take the fallback path although it has a remote URL:
    [atob] raises inside the render and the component is removed. A record
    that has a remote URL but no content type fares the same: line 207
    calls [.startsWith] on the missing value. A record declared image/png
    with a payload that is not base64 is handed to the image element as a
    data URL, its remote URL unused. *)
Lemma C6_counterexample :
  let markup := Sample.html "A" "<p>hi</p>" in
  let untyped :=
    {| Api.stamp := {| Api.cpid := "A"; Api.stamp_mimetype := None;
                       Api.stamp_base64 := "iVBORw0KGgo=";
                       Api.stamp_url := "https://stamps.example/A.png" |};
       Api.dispensers := [] |} in
  let picture :=
    {| Api.stamp := {| Api.cpid := "A"; Api.stamp_mimetype := Some "image/png";
                       Api.stamp_base64 := "<p>hi</p>";
                       Api.stamp_url := "https://stamps.example/A.png" |};
       Api.dispensers := [] |} in
  atob "<p>hi</p>" = None /\
  (exists w,
     run (mount "A") [Settle 0 (Fulfilled markup)] = Some w /\
     truthy (Api.stamp_url (Api.stamp markup)) = true /\
     renderStampContent (state w) = Throws /\
     render (stampId w) (state w) = Throws /\
     unmounted w = true /\
     step w (SetStampId "B") = None) /\
  (exists w,
     run (mount "A") [Settle 0 (Fulfilled untyped)] = Some w /\
     renderStampContent (state w) = Throws /\
     render (stampId w) (state w) = Throws /\
     unmounted w = true) /\
  (exists w,
     run (mount "A") [Settle 0 (Fulfilled picture)] = Some w /\
     renderStampContent (state w) = Returns (Image "data:image/png;base64,<p>hi</p>") /\
     renderStampContent (state w) <> Returns (Image "https://stamps.example/A.png")).
Proof.
  intros markup untyped picture. split; [reflexivity |]. split; [| split].
  - eexists. repeat split; reflexivity.
  - eexists. repeat split; reflexivity.
  - eexists. repeat split; try reflexivity. discriminate.
Qed.

(** C2, as the code has it. A loaded record declared text/html whose
    payload is base64 is rendered in an iframe, from [srcdoc], under the
    sandbox attribute of the source. That attribute lets scripts run in
    the frame and withholds modal dialogs and downloads; but it grants
    [allow-same-origin], so that the frame keeps the origin of the host
    page and with it the host's storage and cookies, and it grants
    [allow-top-navigation], so that the frame may navigate the host page
    with or without a user gesture. *)
Theorem C2_markup_in_permissive_sandbox s data htmlContent :
  loading s = false ->
  stampData s = Some data ->
  Api.stamp_mimetype (Api.stamp data) = Some "text/html" ->
  atob (Api.stamp_base64 (Api.stamp data)) = Some htmlContent ->
  renderStampContent s = Returns (Iframe (styleContent +:+ htmlContent) sandbox) /\
  Sandbox.sandboxed_scripts sandbox = false /\
  Sandbox.sandboxed_modals sandbox = true /\
  Sandbox.sandboxed_downloads sandbox = true /\
  Sandbox.sandboxed_origin sandbox = false /\
  Sandbox.sandboxed_top_navigation_without_user_activation sandbox = false /\
  Sandbox.sandboxed_top_navigation_with_user_activation sandbox = false.
Proof.
  intros Hl Hd Hm Ha. split; [| by vm_compute].
  rewrite (renderStampContent_loaded s data Hl Hd). cbv zeta. by rewrite Hm, Ha.
Qed.

Lemma C2_witness :
  let record := Sample.html "A" "PHNjcmlwdD50b3AubG9jYXRpb249Jy8vZXZpbCc8L3NjcmlwdD4=" in
  let w := Sample.after [Settle 0 (Fulfilled record)] in
  renderStampContent (state w)
  = Returns (Iframe (styleContent +:+ "<script>top.location='//evil'</script>") sandbox) /\
  Sandbox.sandboxed_scripts sandbox = false.
Proof.
  intros record w.
  destruct (C2_markup_in_permissive_sandbox (state w) record
              "<script>top.location='//evil'</script>") as (H1 & H2 & _).
  - reflexivity.
  - reflexivity.
  - reflexivity.
  - reflexivity.
  - split; [exact H1 | exact H2].
Defined.

(** C2 as stated fails (scenario 6 of the specification). The record is
    declared text/html and its payload is a script that navigates the
    host page. It is rendered in an iframe whose sandbox does not set the
    origin flag and does not set the flag that ties top-level navigation
    to a user gesture: the context is not isolated from the host page. *)
Lemma C2_counterexample :
  let record := Sample.html "A" "PHNjcmlwdD50b3AubG9jYXRpb249Jy8vZXZpbCc8L3NjcmlwdD4=" in
  exists w srcDoc attr,
    run (mount "A") [Settle 0 (Fulfilled record)] = Some w /\
    renderStampContent (state w) = Returns (Iframe srcDoc attr) /\
    srcDoc = styleContent +:+ "<script>top.location='//evil'</script>" /\
    Sandbox.allows attr "allow-scripts" = true /\
    Sandbox.sandboxed_origin attr = false /\
    Sandbox.sandboxed_top_navigation_without_user_activation attr = false.
Proof. intros record. do 3 eexists. repeat split; reflexivity. Qed.

(** * Further properties of the code *)

(** ** The catalogue lookup *)
Section CatalogFacts.

Context (c1 c2 c3 c4 : list Catalog.Entry) (stampId : string).

Lemma find_first (l : list Catalog.Entry) :
  match List.find (Catalog.hasCpid stampId) l with
  | Some e =>
      Catalog.cpid e = stampId /\
      exists before after,
        l = before ++ e :: after /\ Forall (fun x => Catalog.cpid x <> stampId) before
  | None => Forall (fun x => Catalog.cpid x <> stampId) l
  end.
Proof.
  induction l as [| x l IH]; simpl; [done |].
  unfold Catalog.hasCpid at 1. destruct (String.eqb_spec (Catalog.cpid x) stampId) as [E | E].
  - split; [done |]. by exists [], l.
  - destruct (List.find (Catalog.hasCpid stampId) l) as [e |].
    + destruct IH as (He & before & after & -> & Hb). split; [done |].
      exists (x :: before), after. split; [done |]. by constructor.
    + by constructor.
Qed.

Lemma find_head_filter (l : list Catalog.Entry) : List.find (Catalog.hasCpid stampId) l = head (List.filter (Catalog.hasCpid stampId) l).
Proof. induction l as [| x l IH]; simpl; [done |]. by destruct (Catalog.hasCpid stampId x). Qed.

Lemma filter_all_same (l : list Catalog.Entry) :
  Forall (fun x => Catalog.cpid x = stampId) (List.filter (Catalog.hasCpid stampId) l).
Proof.
  induction l as [| x l IH]; simpl; [done |].
  unfold Catalog.hasCpid at 1. destruct (String.eqb_spec (Catalog.cpid x) stampId); [by constructor | done].
Qed.

Lemma filter_nonempty (l : list Catalog.Entry) :
  (1 <= length (List.filter (Catalog.hasCpid stampId) l))%nat <->
  exists i e, l !! i = Some e /\ Catalog.cpid e = stampId.
Proof.
  induction l as [| x l IH]; simpl.
  - split; [lia |]. by intros (i & e & ? & _).
  - unfold Catalog.hasCpid at 1. destruct (String.eqb_spec (Catalog.cpid x) stampId) as [E | E]; simpl.
    + split; [| lia]. intros _. by exists 0%nat, x.
    + rewrite IH. split.
      * intros (i & e & Hi & He). by exists (S i), e.
      * intros ([| i] & e & Hi & He); simpl in Hi; [by simplify_eq |]. by exists i, e.
Qed.

Lemma filter_two (l : list Catalog.Entry) :
  (2 <= length (List.filter (Catalog.hasCpid stampId) l))%nat <->
  exists i j e1 e2,
    (i < j)%nat /\ l !! i = Some e1 /\ l !! j = Some e2 /\
    Catalog.cpid e1 = stampId /\ Catalog.cpid e2 = stampId.
Proof.
  induction l as [| x l IH]; simpl.
  - split; [lia |]. by intros (i & j & e1 & e2 & _ & ? & _).
  - unfold Catalog.hasCpid at 1. destruct (String.eqb_spec (Catalog.cpid x) stampId) as [E | E]; simpl.
    + split.
      * intros Hlen. assert (1 <= length (List.filter (Catalog.hasCpid stampId) l))%nat as H1 by lia.
        apply filter_nonempty in H1 as (j & e & Hj & He).
        exists 0%nat, (S j), x, e. repeat split; try done. lia.
      * intros (i & j & e1 & e2 & Hij & Hi & Hj & H1 & H2).
        destruct j as [| j]; [lia |]. simpl in Hj.
        assert (1 <= length (List.filter (Catalog.hasCpid stampId) l))%nat; [| lia].
        apply filter_nonempty. by exists j, e2.
    + rewrite IH. split.
      * intros (i & j & e1 & e2 & Hij & Hi & Hj & H1 & H2).
        exists (S i), (S j), e1, e2. repeat split; try done. lia.
      * intros (i & j & e1 & e2 & Hij & Hi & Hj & H1 & H2).
        destruct i as [| i]; simpl in Hi; [by simplify_eq |].
        destruct j as [| j]; [lia |]. simpl in Hj.
        exists i, j, e1, e2. repeat split; try done. lia.
Qed.

(** X1. [getStampDetails] returns the first entry, in the order chapter 1
    to chapter 4, whose [cpid] is the identifier: every entry before it
    has another [cpid]. It returns nothing exactly when no entry of any
    chapter has that [cpid]. *)
Theorem X1_getStampDetails_first_match :
  match fst (Catalog.getStampDetails c1 c2 c3 c4 stampId) with
  | Some e =>
      Catalog.cpid e = stampId /\
      exists before after,
        c1 ++ c2 ++ c3 ++ c4 = before ++ e :: after /\
        Forall (fun x => Catalog.cpid x <> stampId) before
  | None => Forall (fun x => Catalog.cpid x <> stampId) (c1 ++ c2 ++ c3 ++ c4)
  end.
Proof. apply (find_first (Catalog.allChapters c1 c2 c3 c4)). Qed.

Lemma filter_complete (l : list Catalog.Entry) (e : Catalog.Entry) :
  e ∈ List.filter (Catalog.hasCpid stampId) l <-> e ∈ l /\ Catalog.cpid e = stampId.
Proof.
  rewrite !list_elem_of_In, filter_In. unfold Catalog.hasCpid. by rewrite String.eqb_eq.
Qed.

(** X2. [getStampDetails] writes a warning exactly when two entries at
    different places of the chapters have the identifier as [cpid]. There
    is then one warning; it carries exactly the entries with that [cpid],
    every one of them, as often and in the order in which they stand in
    the chapters, and the entry returned is the first of them. *)
Theorem X2_getStampDetails_warns_on_duplicates :
  let result := Catalog.getStampDetails c1 c2 c3 c4 stampId in
  (snd result <> [] <->
   exists i j e1 e2,
     (i < j)%nat /\
     (c1 ++ c2 ++ c3 ++ c4) !! i = Some e1 /\ (c1 ++ c2 ++ c3 ++ c4) !! j = Some e2 /\
     Catalog.cpid e1 = stampId /\ Catalog.cpid e2 = stampId) /\
  (forall w, w ∈ snd result ->
     snd result = [w] /\
     fst result = head (Catalog.duplicates w) /\
     (2 <= length (Catalog.duplicates w))%nat /\
     (forall e, e ∈ Catalog.duplicates w <-> e ∈ c1 ++ c2 ++ c3 ++ c4 /\ Catalog.cpid e = stampId) /\
     Catalog.duplicates w = List.filter (Catalog.hasCpid stampId) (c1 ++ c2 ++ c3 ++ c4) /\
     sublist (Catalog.duplicates w) (c1 ++ c2 ++ c3 ++ c4)).
Proof.
  intros result. subst result. unfold Catalog.getStampDetails. cbn [fst snd].
  fold (Catalog.allChapters c1 c2 c3 c4).
  rewrite <- (filter_two (Catalog.allChapters c1 c2 c3 c4)).
  destruct (1 <? length (List.filter (Catalog.hasCpid stampId) (Catalog.allChapters c1 c2 c3 c4)))%nat eqn:Hlen.
  - apply Nat.ltb_lt in Hlen. split; [split; [lia | done] |].
    intros w Hw. apply list_elem_of_singleton in Hw as ->. cbn [Catalog.duplicates].
    split; [done |]. split; [apply find_head_filter |]. split; [lia |].
    split; [intros e; apply filter_complete |]. split; [done |].
    clear. induction (Catalog.allChapters c1 c2 c3 c4) as [| x l IH]; simpl; [done |].
    destruct (Catalog.hasCpid stampId x); by constructor.
  - apply Nat.ltb_ge in Hlen. split; [split; [done | lia] |].
    intros w Hw. by apply elem_of_nil in Hw.
Qed.

End CatalogFacts.

(** ** The visibility hook *)

Lemma unattached_step h e h' :
  Visibility.isInView h = false -> Visibility.current h = None ->
  Forall (fun targets => targets = []) (Visibility.observers h) ->
  Visibility.attaches e = false ->
  Visibility.step h e = Some h' ->
  Visibility.isInView h' = false /\ Visibility.current h' = None /\
  Forall (fun targets => targets = []) (Visibility.observers h').
Proof.
  intros Hv Hc Ho He Hs. destruct e as [[el |] | | o entries]; simpl in *.
  - done.
  - by injection Hs as <-.
  - injection Hs as <-.
    assert (match length (Visibility.observers h) with
            | O => h
            | S o => Visibility.cleanup o h
            end = h) as ->.
    { unfold Visibility.cleanup. rewrite Hc. by destruct (length _). }
    unfold Visibility.effect. rewrite Hc. simpl. repeat split; try done.
    apply Forall_app. split; [done |]. by constructor.
  - destruct (Visibility.observers h !! o) as [targets |] eqn:Hlk; [| done].
    rewrite Forall_forall in Ho. rewrite (Ho targets) in Hs.
    + destruct entries as [| [el b] rest]; simpl in Hs; done.
    + by eapply list_elem_of_lookup_2.
Qed.

Lemma unattached_no_report h o entries :
  Forall (fun targets => targets = []) (Visibility.observers h) ->
  Visibility.step h (Visibility.Intersect o entries) = None.
Proof.
  intros Ho. simpl. destruct (Visibility.observers h !! o) as [targets |] eqn:Hlk; [| done].
  rewrite Forall_forall in Ho. rewrite (Ho targets); [| by eapply list_elem_of_lookup_2].
  by destruct entries as [| [el b] rest].
Qed.

(** X3. As long as the ref that [useIntersectionObserver] returns is not
    attached to an element ([StampCard] never attaches it), however often
    the effect runs, no observer observes anything, the browser has
    nothing to report to any of them, and [isInView] stays [false]. *)
Theorem X3_unattached_ref_never_in_view trace h :
  Visibility.run Visibility.initial trace = Some h ->
  forallb (fun e => negb (Visibility.attaches e)) trace = true ->
  Visibility.isInView h = false /\
  Forall (fun targets => targets = []) (Visibility.observers h) /\
  forall o entries, Visibility.step h (Visibility.Intersect o entries) = None.
Proof.
  intros Hrun Hnot.
  assert (Visibility.isInView h = false /\ Visibility.current h = None /\
          Forall (fun targets => targets = []) (Visibility.observers h)) as (Hv & _ & Ho).
  { assert (Visibility.isInView Visibility.initial = false /\
            Visibility.current Visibility.initial = None /\
            Forall (fun targets => targets = []) (Visibility.observers Visibility.initial))
      as Hinit by (repeat split; constructor).
    revert Hrun Hnot Hinit. generalize Visibility.initial as h0.
    induction trace as [| e trace IH]; intros h0 Hrun Hnot (H1 & H2 & H3); simpl in *.
    - by injection Hrun as <-.
    - apply andb_prop in Hnot as [He Hnot]. apply negb_true_iff in He.
      destruct (Visibility.step h0 e) as [h1 |] eqn:Hs; [| done].
      apply (IH h1); try done. by apply (unattached_step h0 e h1). }
  split; [done |]. split; [done |]. intros o entries. by apply unattached_no_report.
Qed.

Lemma X3_witness :
  let trace := [Visibility.Rerun; Visibility.Attach None; Visibility.Rerun; Visibility.Rerun] in
  exists h,
    Visibility.run Visibility.initial trace = Some h /\
    Visibility.observers h = [[]; []; []] /\
    Visibility.isInView h = false.
Proof.
  intros trace. eexists. split; [reflexivity |]. split; [reflexivity |].
  eapply (X3_unattached_ref_never_in_view trace); reflexivity.
Defined.

(** With the ref attached the hook does report: the element is observed
    by the newest observer and an entry for it sets [isInView]. *)
Example attached_ref_reports :
  Visibility.run Visibility.initial
    [Visibility.Attach (Some 7%nat); Visibility.Rerun; Visibility.Intersect 0 [(7%nat, true)]]
  = Some {| Visibility.isInView := true; Visibility.current := Some 7%nat;
            Visibility.observers := [[7%nat]] |}.
Proof. reflexivity. Qed.

(** ** The sort, again *)

Lemma place_least (a : Api.Dispenser) (l : list Api.Dispenser) :
  Forall (by_rate a) l -> place compareRate a l = a :: l.
Proof.
  intros Hall. destruct l as [| b l]; [done |]. simpl.
  apply Forall_cons in Hall as [Hab _]. apply compareRate_le in Hab. by rewrite Hab.
Qed.

Lemma sorted_is_fixed (l : list Api.Dispenser) :
  StronglySorted by_rate l -> Array_sort compareRate l = l.
Proof.
  induction 1 as [| a l Hs IH Hall]; [done |].
  cbn [Array_sort foldr]. fold (Array_sort compareRate l). rewrite IH. by apply place_least.
Qed.

(** X4. Offers that are fetched in ascending order of rate are displayed
    in exactly the fetched order. *)
Theorem X4_sorted_offers_keep_their_order (l : list Api.Dispenser) :
  StronglySorted by_rate l -> Array_sort compareRate l = l.
Proof. apply sorted_is_fixed. Qed.

Lemma X4_witness :
  let l := [Sample.offer "p" 0.001; Sample.offer "q" 0.001; Sample.offer "r" 0.5] in
  Array_sort compareRate l = l.
Proof.
  intros l. apply (X4_sorted_offers_keep_their_order l).
  repeat constructor; unfold by_rate; simpl; lra.
Defined.

(** X5. Whatever the fetched order, sorting twice is sorting once, and the
    sort keeps the number of offers. *)
Theorem X5_sort_idempotent (l : list Api.Dispenser) :
  Array_sort compareRate (Array_sort compareRate l) = Array_sort compareRate l /\
  length (Array_sort compareRate l) = length l.
Proof.
  split.
  - apply sorted_is_fixed, Array_sort_sorted.
  - apply Permutation_length, Array_sort_perm.
Qed.

(** ** What holds in every reachable world *)
Section Reachable.

Implicit Types (w : World) (s : State).

Lemma reachable_mount id : reachable (mount id).
Proof. by exists id, []. Qed.

Lemma reachable_step w e w' : reachable w -> step w e = Some w' -> reachable w'.
Proof.
  intros (id & trace & Hrun) Hs. exists id, (trace ++ [e]).
  rewrite run_app, Hrun. simpl. by rewrite Hs.
Qed.

Lemma reachable_ind (P : World -> Prop) :
  (forall id, P (mount id)) ->
  (forall w e w', reachable w -> P w -> step w e = Some w' -> P w') ->
  forall w, reachable w -> P w.
Proof.
  intros Hm Hs w (id & trace & Hrun).
  assert (reachable w /\ P w) as [_ H]; [| done].
  pattern w. eapply run_invariant; [| | exact Hrun]; cbv beta.
  - intros w1 e w2 [Hr HP] Hstep. split; [by eapply reachable_step | by eapply Hs].
  - split; [apply reachable_mount | apply Hm].
Qed.

Lemma unmounted_onClick c w : unmounted (onClick c w) = unmounted w.
Proof.
  unfold onClick, handleCopyAddress, writeText.
  repeat case_match; simplify_eq; done.
Qed.

Lemma render_commit w : render (stampId (commit w)) (state (commit w)) = render (stampId w) (state w).
Proof. by rewrite stampId_commit, state_commit. Qed.

(** A world is marked unmounted exactly when its render raises. *)
Lemma unmounted_iff_throws w :
  reachable w ->
  unmounted w = match render (stampId w) (state w) with
                | Returns _ => false
                | Throws => true
                end.
Proof.
  revert w. apply reachable_ind; [done |].
  intros w e w' _ IH Hs. pose proof (step_mounted _ _ _ Hs) as Hu.
  destruct e as [id | k r | inside target | | granted].
  - unfold step in Hs. rewrite Hu in Hs.
    destruct (String.eqb id (stampId w)); injection Hs as <-; [done |].
    rewrite render_commit. by apply unmounted_commit.
  - by apply (settle_unmounted w k r).
  - unfold step in Hs. rewrite Hu in Hs.
    destruct (render (stampId w) (state w)) as [[m | ? ? ? ? ? ?] |] eqn:Hr; try done.
    destruct inside as [c |].
    + destruct (offers _ c); [| done]. injection Hs as <-.
      rewrite render_commit. apply unmounted_commit. simpl. by rewrite unmounted_onClick.
    + injection Hs as <-. rewrite render_commit. by apply unmounted_commit.
  - unfold step in Hs. rewrite Hu in Hs.
    destruct (render (stampId w) (state w)) as [[m | [] ? ? ? ? ?] |] eqn:Hr; try done.
    injection Hs as <-. rewrite render_commit. by apply unmounted_commit.
  - unfold step in Hs. rewrite Hu in Hs. injection Hs as <-. exact IH.
Qed.


(** The flag of the modal is never raised. *)
Lemma modal_closed w : reachable w -> isDispenserOpen (state w) = false.
Proof.
  revert w. apply reachable_ind; [done |].
  intros w e w' _ IH Hs. destruct e as [id | k r | inside target | | granted].
  - by apply step_SetStampId in Hs as (-> & _).
  - apply step_Settle in Hs as (_ & _ & _ & ->). destruct r as [data | |]; [| done | done].
    by destruct (fetchData_fulfilled data (state w)) as (_ & _ & _ & _ & -> & _).
  - apply step_Click in Hs as (_ & Hst & _). destruct inside as [c |].
    + destruct Hst as [_ ->]. rewrite handleClick_modal, state_onClick. by destruct c.
    + by rewrite Hst, handleClick_modal.
  - by apply step_CloseModal in Hs as (_ & -> & _).
  - by apply step_ClipboardPermission in Hs as (-> & _).
Qed.

(** While [loading] is set nothing has been stored and a fetch is
    pending. *)
Lemma loading_or_settled w :
  reachable w ->
  loading (state w) = true ->
  stampData (state w) = None /\ error (state w) = None /\
  dispensers (state w) = [] /\ pending w <> [].
Proof.
  revert w.
  apply (reachable_ind (fun w =>
           loading (state w) = true ->
           stampData (state w) = None /\ error (state w) = None /\
           dispensers (state w) = [] /\ pending w <> [])); [done |].
  intros w e w' _ IH Hs.
  destruct (settle_or_not e) as [(k & r & ->) | Hui].
  - apply step_Settle in Hs as (_ & _ & _ & ->). destruct r as [data | |]; [| done | done].
    by destruct (fetchData_fulfilled data (state w)) as (_ & -> & _).
  - pose proof (step_keeps_record _ _ _ Hs Hui) as (-> & -> & -> & ->).
    intros Hl. destruct (IH Hl) as (? & ? & ? & Hp). repeat split; try done.
    destruct e as [id | k r | inside target | | granted].
    + apply step_SetStampId in Hs as (_ & _ & [[_ ->] | [_ ->]]); [done |].
      intros E. by apply app_eq_nil in E as [_ ?].
    + by destruct (Hui k r).
    + by apply step_Click in Hs as (_ & _ & -> & _).
    + by apply step_CloseModal in Hs as (_ & _ & -> & _).
    + by apply step_ClipboardPermission in Hs as (_ & -> & _).
Qed.

End Reachable.

(** ** Clicks, in full *)
Section Clicks.

Implicit Types (w : World) (s : State).

Lemma step_Click_form w inside target w' :
  step w (Click inside target) = Some w' ->
  exists v,
    render (stampId w) (state w) = Returns v /\
    match inside with Some c => offers v c = true | None => True end /\
    w' = commit (withState (handleClick (isFlipped (state w)) target)
                   (match inside with Some c => onClick c w | None => w end)).
Proof.
  unfold step. destruct (unmounted w); [done |].
  destruct (render (stampId w) (state w)) as [[m | ? ? ? ? ? ?] |] eqn:Hr; try done.
  destruct inside as [c |].
  - destruct (offers _ c) eqn:Ho; [| done]. intros [= <-]. eauto.
  - intros [= <-]. eauto.
Qed.

(** What each control on the page finds in the state. *)
Lemma offered_control w v c :
  render (stampId w) (state w) = Returns v -> offers v c = true ->
  match c with
  | BuyArt | CpidText => loading (state w) = false /\ exists data, stampData (state w) = Some data
  | Back => True
  | MenuItem index => exists d, dispensers (state w) !! index = Some d
  | CopyIcon => dispensers (state w) <> [] /\ exists d, selectedDispenser (state w) = Some d
  end.
Proof.
  intros Hr Ho. unfold render in Hr.
  destruct (errorShown (state w)); [by simplify_eq |].
  destruct (renderStampContent (state w)); [| done]. injection Hr as <-.
  destruct c; simpl in Ho; try done.
  - unfold renderFooter in Ho. destruct (loading (state w)); [done |].
    destruct (stampData (state w)); [eauto | done].
  - unfold renderBack in Ho. destruct (length (dispensers (state w)) =? 0)%nat; [done |].
    apply bool_decide_eq_true in Ho. by apply lookup_lt_is_Some in Ho.
  - unfold renderFooter in Ho. destruct (loading (state w)); [done |].
    destruct (stampData (state w)); [eauto | done].
  - unfold renderBack in Ho.
    destruct (length (dispensers (state w)) =? 0)%nat eqn:Hlen; [done |].
    destruct (0 <? length (dispensers (state w)))%nat; [| done].
    destruct (selectedDispenser (state w)); [| done].
    split; [| eauto]. intros E. by rewrite E in Hlen.
Qed.

Lemma clipboard_handleCopyAddress address w :
  clipboard (handled (handleCopyAddress address w) w)
  = if clipboardGranted w then Some address else clipboard w.
Proof.
  unfold handled, handleCopyAddress, writeText, clipboardGranted.
  by destruct (clipboardAccess w).
Qed.

Lemma clipboardAccess_commit w : clipboardAccess (commit w) = clipboardAccess w.
Proof. unfold commit. by destruct (render _ _). Qed.

Lemma clipboardAccess_onClick c w : clipboardAccess (onClick c w) = clipboardAccess w.
Proof.
  unfold onClick, handled, handleCopyAddress, writeText.
  repeat case_match; simplify_eq; done.
Qed.

Lemma step_access w e w' :
  step w e = Some w' ->
  clipboardAccess w' = match e with
                       | ClipboardPermission access => access
                       | _ => clipboardAccess w
                       end.
Proof.
  intros Hs. destruct e as [id | k r | inside target | | access].
  - unfold step in Hs. destruct (unmounted w); [done |].
    destruct (String.eqb id (stampId w)); injection Hs as <-; by rewrite ?clipboardAccess_commit.
  - unfold step in Hs. destruct (unmounted w); [done |].
    destruct (pending w !! k); [| done]. injection Hs as <-.
    rewrite clipboardAccess_commit. by destruct r.
  - apply step_Click_form in Hs as (v & _ & _ & ->). rewrite clipboardAccess_commit. simpl.
    destruct inside as [c |]; [apply clipboardAccess_onClick | done].
  - unfold step in Hs. destruct (unmounted w); [done |].
    destruct (render (stampId w) (state w)) as [[m | [] ? ? ? ? ?] |]; try done.
    injection Hs as <-. by rewrite clipboardAccess_commit.
  - unfold step in Hs. destruct (unmounted w); [done |]. by injection Hs as <-.
Qed.

(** What an event adds to the toasts and to the uncaught exceptions. *)
Lemma step_outputs w e w' :
  step w e = Some w' ->
  toasts w' = toasts w ++ (if is_copy_click e && clipboardPresent w then [copiedToast] else []) /\
  uncaughtErrors w'
  = (uncaughtErrors w + if is_copy_click e && negb (clipboardPresent w) then 1 else 0)%nat.
Proof.
  intros Hs. destruct e as [id | k r | inside target | | access].
  - unfold step in Hs. destruct (unmounted w); [done |].
    destruct (String.eqb id (stampId w)); injection Hs as <-;
      rewrite ?toasts_commit, ?uncaughtErrors_commit; simpl; by rewrite app_nil_r, Nat.add_0_r.
  - unfold step in Hs. destruct (unmounted w); [done |].
    destruct (pending w !! k); [| done]. injection Hs as <-.
    rewrite toasts_commit, uncaughtErrors_commit.
    destruct r; simpl; by rewrite app_nil_r, Nat.add_0_r.
  - apply step_Click_form in Hs as (v & Hv & Ho & ->).
    rewrite toasts_commit, uncaughtErrors_commit. simpl. destruct inside as [c |].
    + pose proof (offered_control w v c Hv Ho) as Hc. unfold clipboardPresent.
      destruct c; simpl; rewrite ?app_nil_r, ?Nat.add_0_r; try done.
      * destruct Hc as (_ & data & ->). unfold handled, handleCopyAddress, writeText.
        destruct (clipboardAccess w); simpl; by rewrite ?app_nil_r, ?Nat.add_0_r, ?Nat.add_1_r.
      * destruct Hc as (_ & d & ->). unfold handled, handleCopyAddress, writeText.
        destruct (clipboardAccess w); simpl; by rewrite ?app_nil_r, ?Nat.add_0_r, ?Nat.add_1_r.
    + simpl. by rewrite app_nil_r, Nat.add_0_r.
  - unfold step in Hs. destruct (unmounted w); [done |].
    destruct (render (stampId w) (state w)) as [[m | [] ? ? ? ? ?] |]; try done.
    injection Hs as <-. rewrite toasts_commit, uncaughtErrors_commit. simpl.
    by rewrite app_nil_r, Nat.add_0_r.
  - unfold step in Hs. destruct (unmounted w); [done |]. injection Hs as <-.
    simpl. by rewrite app_nil_r, Nat.add_0_r.
Qed.

End Clicks.

(** ** The card along its traces *)

(** X6. The purchase modal is never shown: nothing in the component calls
    [setIsDispenserOpen(true)], so in every reachable world the flag is
    [false], the card is rendered without the modal and the modal's
    [onClose] cannot happen. *)
Theorem X6_modal_never_shown id trace w :
  run (mount id) trace = Some w ->
  isDispenserOpen (state w) = false /\
  step w CloseModal = None /\
  forall modal flipped preview footer backTitle back,
    render (stampId w) (state w) = Returns (CardView modal flipped preview footer backTitle back) ->
    modal = false.
Proof.
  intros Hrun.
  pose proof (modal_closed w (ex_intro _ id (ex_intro _ trace Hrun))) as Hm.
  split; [done |]. split.
  - destruct (step w CloseModal) as [w' |] eqn:Hs; [| done].
    apply step_CloseModal in Hs as (Ho & _). congruence.
  - intros modal flipped preview footer backTitle back Hr. unfold render in Hr.
    destruct (errorShown (state w)); [done |].
    destruct (renderStampContent (state w)); [| done]. congruence.
Qed.

Lemma X6_witness :
  let w := Sample.after [Settle 0 (Fulfilled (Sample.png "A" Sample.offers3));
                         Click (Some BuyArt) Sample.button] in
  isFlipped (state w) = true /\ isDispenserOpen (state w) = false /\ step w CloseModal = None.
Proof.
  intros w. split; [reflexivity |].
  destruct (X6_modal_never_shown "A"
              [Settle 0 (Fulfilled (Sample.png "A" Sample.offers3));
               Click (Some BuyArt) Sample.button] w) as (H1 & H2 & _).
  - reflexivity.
  - split; [exact H1 | exact H2].
Defined.

(** X7. While the card shows the loading placeholder no fetch has settled
    yet: there is no record, no error, no offer and no selection, a fetch
    is pending, and what is rendered is the skeleton card with the
    "no dispensers" back. *)
Theorem X7_loading_means_nothing_stored id trace w :
  run (mount id) trace = Some w ->
  loading (state w) = true ->
  stampData (state w) = None /\ error (state w) = None /\
  dispensers (state w) = [] /\ selectedDispenser (state w) = None /\
  pending w <> [] /\ unmounted w = false /\
  render (stampId w) (state w)
  = Returns (CardView false (isFlipped (state w)) Skeleton FooterSkeleton (stampId w) NoDispensers).
Proof.
  intros Hrun Hl.
  assert (reachable w) as Hr by (by exists id, trace).
  destruct (loading_or_settled w Hr Hl) as (Hd & He & Hds & Hp).
  destruct (selection_among_shown w Hr) as [Hsel _].
  assert (render (stampId w) (state w)
          = Returns (CardView false (isFlipped (state w)) Skeleton FooterSkeleton
                       (stampId w) NoDispensers)) as Hv.
  { unfold render, errorShown, renderStampContent, renderFooter, renderBack.
    by rewrite He, Hl, Hds, (modal_closed w Hr). }
  repeat split; try done.
  - by apply Hsel.
  - by rewrite (unmounted_iff_throws w Hr), Hv.
Qed.

Lemma X7_witness :
  let w := Sample.after [SetStampId "B"; Click None Sample.div] in
  loading (state w) = true /\ pending w = ["A"; "B"] /\
  render (stampId w) (state w)
  = Returns (CardView false true Skeleton FooterSkeleton "B" NoDispensers).
Proof.
  intros w. split; [reflexivity |]. split; [reflexivity |].
  destruct (X7_loading_means_nothing_stored "A" [SetStampId "B"; Click None Sample.div] w)
    as (_ & _ & _ & _ & _ & _ & H); [reflexivity | reflexivity |]. exact H.
Defined.



(** X10. The back of the card has two shapes only: the "no dispensers"
    picture when no offer is on display, or the menu of the offers on
    display together with the panel of the selected offer, which is one
    of them. The menu is never shown without a panel. *)
Theorem X10_menu_comes_with_panel id trace w :
  run (mount id) trace = Some w ->
  (dispensers (state w) = [] /\ renderBack (state w) = NoDispensers) \/
  (exists d,
     d ∈ dispensers (state w) /\
     renderBack (state w) = DispenserMenu (dispensers (state w)) (Some d)).
Proof.
  intros Hrun.
  destruct (selection_among_shown w (ex_intro _ id (ex_intro _ trace Hrun))) as [Hiff Hin].
  unfold renderBack. destruct (dispensers (state w)) as [| d0 l] eqn:Hds; [by left |].
  right. destruct (selectedDispenser (state w)) as [d |] eqn:Hsel.
  - exists d. split; [by apply Hin | done].
  - destruct Hiff as [H _]. by specialize (H eq_refl).
Qed.

Lemma X10_witness :
  let w := Sample.after [Settle 0 (Fulfilled (Sample.png "A" Sample.offers3))] in
  renderBack (state w)
  = DispenserMenu (dispensers (state w)) (Some (Sample.offer "bc1q-second" 0.0015)).
Proof.
  intros w.
  destruct (X10_menu_comes_with_panel "A"
              [Settle 0 (Fulfilled (Sample.png "A" Sample.offers3))] w) as [[H _] | _].
  - reflexivity.
  - discriminate H.
  - reflexivity.
Defined.

Lemma shown_offers_run trace w w' acc :
  run w trace = Some w' ->
  dispensers (state w) = sorted_offers acc ->
  dispensers (state w') = sorted_offers (last_with_offers trace acc).
Proof.
  revert w acc. induction trace as [| e trace IH]; intros w acc Hrun Hacc; simpl in Hrun.
  - by injection Hrun as <-.
  - destruct (step w e) as [w1 |] eqn:He; [| done].
    destruct (settle_or_not e) as [(k & r & ->) | Hui].
    + apply step_Settle in He as (_ & _ & _ & Hst). destruct r as [data | |]; simpl.
      * apply (IH w1); [done |].
        destruct (fetchData_fulfilled data (state w)) as (_ & _ & _ & _ & _ & Hnil & Hsome).
        rewrite Hst. destruct (Api.dispensers data) as [| d l] eqn:Hd; simpl.
        -- by destruct (Hnil eq_refl) as [-> _].
        -- destruct Hsome as [-> _]; [done |]. by rewrite Hd.
      * apply (IH w1); [done |]. by rewrite Hst.
      * apply (IH w1); [done |]. by rewrite Hst.
    + apply step_keeps_record in He as (_ & _ & _ & Hds); [| done].
      assert (last_with_offers (e :: trace) acc = last_with_offers trace acc) as ->.
      { destruct e as [| k r | | |]; try done. by destruct (Hui k r). }
      apply (IH w1); [done |]. by rewrite Hds.
Qed.

(** X11. The offers on display are always the sorted offers of the last
    record, among those that arrived, that came with at least one offer;
    none are on display if no such record arrived. A later record without
    offers does not clear them. *)
Theorem X11_shown_offers_of_last_record_with_offers id trace w :
  run (mount id) trace = Some w ->
  dispensers (state w) = sorted_offers (last_with_offers trace None).
Proof. intros Hrun. by apply (shown_offers_run trace (mount id) w None). Qed.

Lemma X11_witness :
  let recordA := Sample.png "A" Sample.offers3 in
  let w := Sample.after [Settle 0 (Fulfilled recordA); SetStampId "B";
                         Settle 0 (Fulfilled (Sample.png "B" []))] in
  dispensers (state w) = Array_sort compareRate Sample.offers3.
Proof.
  intros recordA w.
  apply (X11_shown_offers_of_last_record_with_offers "A"
           [Settle 0 (Fulfilled recordA); SetStampId "B";
            Settle 0 (Fulfilled (Sample.png "B" []))] w).
  reflexivity.
Defined.

(** X12. Clicks, the closing of the modal and changes of the clipboard
    permission never touch the network or the record: the pending fetches,
    the prop, the stored record, [loading], [error] and the offers on
    display are as before. *)
Theorem X12_local_events_touch_no_fetch w e w' :
  is_local e = true ->
  step w e = Some w' ->
  pending w' = pending w /\ stampId w' = stampId w /\
  stampData (state w') = stampData (state w) /\
  loading (state w') = loading (state w) /\
  error (state w') = error (state w) /\
  dispensers (state w') = dispensers (state w).
Proof.
  intros Hl Hs.
  assert (forall k r, e <> Settle k r) as H1 by (by intros k r ->).
  assert (forall id, e <> SetStampId id) as H2 by (by intros id ->).
  destruct (step_keeps_requests _ _ _ Hs H1 H2) as [-> ->].
  by destruct (step_keeps_record _ _ _ Hs H1) as (-> & -> & -> & ->).
Qed.

Lemma X12_witness :
  let w := Sample.after [Settle 0 (Fulfilled (Sample.png "A" Sample.offers3)); SetStampId "B"] in
  let w' := Sample.after [Settle 0 (Fulfilled (Sample.png "A" Sample.offers3)); SetStampId "B";
                          Click (Some (MenuItem 2)) Sample.button] in
  step w (Click (Some (MenuItem 2)) Sample.button) = Some w' /\
  pending w' = ["B"] /\ stampData (state w') = stampData (state w).
Proof.
  intros w w'. split; [reflexivity |].
  destruct (X12_local_events_touch_no_fetch w (Click (Some (MenuItem 2)) Sample.button) w')
    as (H1 & _ & H3 & _); [reflexivity | reflexivity |].
  split; [exact H1 | exact H3].
Defined.

(** X13. A click on the item at position [index] of the menu makes the
    offer at that position of the list on display the selection, whatever
    was selected before; the list itself stays, and nothing is copied or
    announced. *)
Theorem X13_menu_item_selects w index target w' :
  step w (Click (Some (MenuItem index)) target) = Some w' ->
  exists d,
    dispensers (state w) !! index = Some d /\
    selectedDispenser (state w') = Some d /\
    dispensers (state w') = dispensers (state w) /\
    toasts w' = toasts w /\ clipboard w' = clipboard w.
Proof.
  intros Hs. apply step_Click_form in Hs as (v & Hv & Ho & ->).
  destruct (offered_control w v (MenuItem index) Hv Ho) as [d Hd].
  exists d. rewrite state_commit, clipboard_commit, toasts_commit. simpl.
  split; [done |]. rewrite Hd. unfold handleClick.
  by destruct (isHTMLElement target), (includes interactiveElements (tagName target)).
Qed.

Lemma X13_witness :
  let w := Sample.after [Settle 0 (Fulfilled (Sample.png "A" Sample.offers3))] in
  let w' := Sample.after [Settle 0 (Fulfilled (Sample.png "A" Sample.offers3));
                          Click (Some (MenuItem 1)) Sample.button] in
  step w (Click (Some (MenuItem 1)) Sample.button) = Some w' /\
  selectedDispenser (state w') = Some (Sample.offer "bc1q-first" 0.002).
Proof.
  intros w w'. split; [reflexivity |].
  destruct (X13_menu_item_selects w 1 Sample.button w') as (d & H1 & H2 & _); [reflexivity |].
  rewrite H2, <- H1. reflexivity.
Defined.

(** X14. A click on the [cpid] text copies the [cpid] of the stored
    record (not the prop); a click on the copy icon copies the source
    address of the selected offer. The text reaches the clipboard when the
    browser grants the write and the clipboard keeps its content
    otherwise. The click then bubbles to [handleClick] like any other: on
    a plain HTML element, such as the paragraph of the [cpid] text, it
    also turns the card over. *)
Theorem X14_what_a_copy_click_copies w c target w' :
  c = CpidText \/ c = CopyIcon ->
  step w (Click (Some c) target) = Some w' ->
  exists address,
    match c with
    | CpidText =>
        exists data, stampData (state w) = Some data /\ address = Api.cpid (Api.stamp data)
    | _ => exists d, selectedDispenser (state w) = Some d /\ address = Api.source d
    end /\
    clipboard w' = (if clipboardGranted w then Some address else clipboard w) /\
    isFlipped (state w')
    = if isHTMLElement target && negb (includes interactiveElements (tagName target))
      then negb (isFlipped (state w)) else isFlipped (state w).
Proof.
  intros Hc Hs. apply step_Click_form in Hs as (v & Hv & Ho & ->).
  pose proof (offered_control w v c Hv Ho) as Hoff.
  rewrite clipboard_commit, state_commit. simpl. rewrite handleClick_flip, state_onClick.
  destruct Hc as [-> | ->]; simpl.
  - destruct Hoff as (_ & data & Hd). rewrite Hd.
    exists (Api.cpid (Api.stamp data)). split; [eauto |].
    by rewrite clipboard_handleCopyAddress.
  - destruct Hoff as (_ & d & Hd). rewrite Hd.
    exists (Api.source d). split; [eauto |].
    by rewrite clipboard_handleCopyAddress.
Qed.

Lemma X14_witness :
  let w := Sample.after [Settle 0 (Fulfilled (Sample.png "A" Sample.offers3)); SetStampId "B"] in
  let paragraph := {| isHTMLElement := true; tagName := "P" |} in
  let w' := Sample.after [Settle 0 (Fulfilled (Sample.png "A" Sample.offers3)); SetStampId "B";
                          Click (Some CpidText) paragraph] in
  step w (Click (Some CpidText) paragraph) = Some w' /\
  stampId w' = "B" /\
  clipboard w' = Some "A" /\
  isFlipped (state w') = true.
Proof.
  intros w paragraph w'. split; [vm_compute; reflexivity |]. split; [vm_compute; reflexivity |].
  destruct (X14_what_a_copy_click_copies w CpidText paragraph w')
    as (address & (data & Hd & ->) & H1 & H2); [by left | vm_compute; reflexivity |].
  vm_compute in Hd. injection Hd as <-. vm_compute in H1, H2. split; [exact H1 | exact H2].
Defined.

Lemma outputs_run w trace w' :
  run w trace = Some w' ->
  exists n m,
    toasts w' = toasts w ++ replicate n copiedToast /\
    uncaughtErrors w' = (uncaughtErrors w + m)%nat /\
    (n + m)%nat = length (List.filter is_copy_click trace).
Proof.
  revert w. induction trace as [| e trace IH]; intros w Hrun; simpl in Hrun.
  - injection Hrun as <-. exists 0%nat, 0%nat. simpl. by rewrite app_nil_r, Nat.add_0_r.
  - destruct (step w e) as [w1 |] eqn:He; [| done].
    destruct (IH w1 Hrun) as (n & m & -> & -> & Hnm).
    destruct (step_outputs w e w1 He) as [-> ->]. simpl.
    destruct (is_copy_click e), (clipboardPresent w); simpl.
    + exists (S n), m. rewrite <- app_assoc. simpl. repeat split; try done; lia.
    + exists n, (S m). rewrite app_nil_r. repeat split; try done; lia.
    + exists n, m. rewrite app_nil_r. repeat split; try done; lia.
    + exists n, m. rewrite app_nil_r. repeat split; try done; lia.
Qed.

Lemma outputs_with_clipboard w trace w' :
  run w trace = Some w' ->
  clipboardPresent w = true -> forallb keeps_clipboard trace = true ->
  toasts w' = toasts w ++ replicate (length (List.filter is_copy_click trace)) copiedToast /\
  uncaughtErrors w' = uncaughtErrors w.
Proof.
  revert w. induction trace as [| e trace IH]; intros w Hrun Hp Hk; simpl in Hrun, Hk.
  - injection Hrun as <-. simpl. by rewrite app_nil_r.
  - destruct (step w e) as [w1 |] eqn:He; [| done].
    apply andb_prop in Hk as [Hke Hk].
    assert (clipboardPresent w1 = true) as Hp1.
    { unfold clipboardPresent in *. rewrite (step_access w e w1 He).
      destruct e as [| | | | []]; done. }
    destruct (IH w1 Hrun Hp1 Hk) as [-> ->].
    destruct (step_outputs w e w1 He) as [-> ->]. rewrite Hp. simpl.
    destruct (is_copy_click e); simpl; rewrite <- ?app_assoc, ?app_nil_r; split; try done; lia.
Qed.

(** X15. Every click on a copy control leaves exactly one mark: a toast
    or an uncaught exception. Nothing else requests a toast or raises in a
    handler, and the component never takes a toast back. As long as the
    page has a clipboard the mark is always the toast: the toasts grow by
    one [copiedToast] per copy click and no exception leaves a handler. *)
Theorem X15_toast_or_exception_per_copy_click w trace w' :
  run w trace = Some w' ->
  (exists n m,
     toasts w' = toasts w ++ replicate n copiedToast /\
     uncaughtErrors w' = (uncaughtErrors w + m)%nat /\
     (n + m)%nat = length (List.filter is_copy_click trace)) /\
  (clipboardPresent w = true -> forallb keeps_clipboard trace = true ->
   toasts w' = toasts w ++ replicate (length (List.filter is_copy_click trace)) copiedToast /\
   uncaughtErrors w' = uncaughtErrors w).
Proof.
  intros Hrun. split; [by apply outputs_run |]. by apply outputs_with_clipboard.
Qed.

Lemma X15_witness :
  let trace := [Settle 0 (Fulfilled (Sample.png "A" Sample.offers3));
                Click (Some CopyIcon) Sample.svg; Click (Some BuyArt) Sample.button;
                ClipboardPermission Refused; Click (Some CpidText) Sample.div] in
  toasts (Sample.after trace) = [copiedToast; copiedToast] /\
  uncaughtErrors (Sample.after trace) = 0%nat.
Proof.
  intros trace.
  destruct (X15_toast_or_exception_per_copy_click (mount "A") trace (Sample.after trace))
    as [_ H]; [vm_compute; reflexivity |].
  apply H; reflexivity.
Defined.

(** X16. Taps on a plain HTML element of the card compose as expected:
    after [n] of them the card shows the face it showed before when [n] is
    even and the other face when [n] is odd. *)
Theorem X16_taps_alternate n target w w' :
  isHTMLElement target = true ->
  includes interactiveElements (tagName target) = false ->
  run w (replicate n (Click None target)) = Some w' ->
  isFlipped (state w') = xorb (isFlipped (state w)) (Nat.odd n).
Proof.
  intros Hh Hi. revert w. induction n as [| n IH]; intros w Hrun; simpl in Hrun.
  - injection Hrun as <-. by destruct (isFlipped (state w)).
  - destruct (step w (Click None target)) as [w1 |] eqn:Hs; [| done].
    rewrite (IH w1 Hrun). apply step_Click in Hs as (_ & -> & _).
    rewrite handleClick_flip, Hh, Hi. simpl.
    rewrite Nat.odd_succ, <- Nat.negb_odd.
    by destruct (isFlipped (state w)), (Nat.odd n).
Qed.

Lemma X16_witness :
  isFlipped (state (Sample.after (replicate 5 (Click None Sample.div)))) = true.
Proof.
  apply (X16_taps_alternate 5 Sample.div (mount "A")
           (Sample.after (replicate 5 (Click None Sample.div)))); vm_compute; reflexivity.
Defined.

(** ** The data URL *)

Lemma append_semicolon_inj (m m' rest rest' : string) :
  no_semicolon m = true -> no_semicolon m' = true ->
  m +:+ String ";" rest = m' +:+ String ";" rest' ->
  m = m' /\ rest = rest'.
Proof.
  revert m'. induction m as [| c m IH]; intros [| c' m'] Hm Hm' E; simpl in *.
  - by injection E as ->.
  - injection E as <- _. by rewrite Ascii.eqb_refl in Hm'.
  - injection E as -> _. by rewrite Ascii.eqb_refl in Hm.
  - injection E as -> E. apply andb_prop in Hm as [_ Hm], Hm' as [_ Hm'].
    by destruct (IH m' Hm Hm' E) as [-> ->].
Qed.

(** X17. [convertBase64ToImage] loses nothing: for content types without
    a semicolon, two data URLs are equal only if content type and payload
    both are, so distinct records never share a preview URL. *)
Theorem X17_data_url_injective (base64 base64' mimeType mimeType' : string) :
  no_semicolon mimeType = true -> no_semicolon mimeType' = true ->
  convertBase64ToImage base64 mimeType = convertBase64ToImage base64' mimeType' ->
  mimeType = mimeType' /\ base64 = base64'.
Proof.
  intros Hm Hm' E. unfold convertBase64ToImage in E. simpl in E.
  injection E as E.
  destruct (append_semicolon_inj mimeType mimeType' _ _ Hm Hm' E) as [-> E'].
  split; [done |]. by injection E'.
Qed.

Lemma X17_witness :
  convertBase64ToImage "iVBORw0KGgo=" "image/png" = "data:image/png;base64,iVBORw0KGgo=" /\
  "image/png" = "image/png" /\ "iVBORw0KGgo=" = "iVBORw0KGgo=".
Proof.
  split; [reflexivity |].
  apply (X17_data_url_injective "iVBORw0KGgo=" "iVBORw0KGgo=" "image/png" "image/png");
    reflexivity.
Defined.

(** ** The flags of the fetch as functions of the past *)

Lemma flags_run trace w w' :
  run w trace = Some w' ->
  loading (state w') = loading (state w) && negb (existsb is_settle trace) /\
  error (state w')
  = if existsb is_rejection trace then Some "Failed to fetch stamp information."
    else error (state w).
Proof.
  revert w. induction trace as [| e trace IH]; intros w Hrun; simpl in Hrun.
  - injection Hrun as <-. simpl. by rewrite andb_true_r.
  - destruct (step w e) as [w1 |] eqn:He; [| done].
    destruct (IH w1 Hrun) as [-> ->]. clear IH Hrun.
    destruct (settle_or_not e) as [(k & r & ->) | Hui].
    + apply step_Settle in He as (_ & _ & _ & ->). destruct r as [data | |]; simpl.
      * destruct (fetchData_fulfilled data (state w)) as (_ & -> & -> & _).
        by rewrite andb_false_r.
      * rewrite andb_false_r. by destruct (existsb is_rejection trace).
      * by rewrite andb_false_r.
    + apply step_keeps_record in He as (_ & -> & -> & _); [| done].
      assert (is_settle e = false /\ is_rejection e = false) as [E1 E2].
      { destruct e as [| k r | | |]; try done. by destruct (Hui k r). }
      simpl. by rewrite E1, E2.
Qed.

(** X18. The two flags of the fetch depend on the past in the simplest
    way: the card is loading exactly as long as no fetch has settled, and
    it holds the error message exactly if some fetch was ever rejected,
    however many fetches were fulfilled before or after. *)
Theorem X18_flags_follow_the_settled_fetches id trace w :
  run (mount id) trace = Some w ->
  loading (state w) = negb (existsb is_settle trace) /\
  error (state w)
  = if existsb is_rejection trace then Some "Failed to fetch stamp information." else None.
Proof. intros Hrun. by destruct (flags_run trace (mount id) w Hrun) as [-> ->]. Qed.

Lemma X18_witness :
  let w := Sample.after [SetStampId "B"; Click None Sample.div; Settle 1 Rejected;
                         Settle 0 (Fulfilled (Sample.png "A" []))] in
  loading (state w) = false /\ error (state w) = Some "Failed to fetch stamp information.".
Proof.
  intros w.
  apply (X18_flags_follow_the_settled_fetches "A"
           [SetStampId "B"; Click None Sample.div; Settle 1 Rejected;
            Settle 0 (Fulfilled (Sample.png "A" []))] w).
  vm_compute. reflexivity.
Defined.

(** ** The visibility hook with a ref in use *)

Lemma cleanup_last (el : nat) (n : nat) (v : bool) :
  Visibility.cleanup n
    {| Visibility.isInView := v; Visibility.current := Some el;
       Visibility.observers := replicate n [] ++ [[el]] |}
  = {| Visibility.isInView := v; Visibility.current := Some el;
       Visibility.observers := replicate (S n) [] |}.
Proof.
  unfold Visibility.cleanup. cbn [Visibility.current Visibility.isInView Visibility.observers].
  f_equal. induction n as [| n IH].
  - simpl. by rewrite Nat.eqb_refl.
  - cbn [replicate app]. etransitivity; [| apply (f_equal (cons []) IH)]. reflexivity.
Qed.

(** X19. With the ref attached to one element before the first effect
    and left there, the effect and its cleanup work hand in hand however
    often the effect runs and whatever the browser reports: every
    observer but the newest has stopped observing and the newest observes
    the element. *)
Theorem X19_stable_ref_one_live_observer el trace h :
  Visibility.run Visibility.initial (Visibility.Attach (Some el) :: Visibility.Rerun :: trace)
  = Some h ->
  forallb (fun e => match e with Visibility.Attach _ => false | _ => true end) trace = true ->
  Visibility.current h = Some el /\
  exists n, Visibility.observers h = replicate n [] ++ [[el]].
Proof.
  simpl. intros Hrun Hnot.
  assert (exists v n,
            {| Visibility.isInView := false; Visibility.current := Some el;
               Visibility.observers := [[el]] |}
            = {| Visibility.isInView := v; Visibility.current := Some el;
                 Visibility.observers := replicate n [] ++ [[el]] |}) as (v & n & E)
    by (by exists false, 0%nat).
  unfold Visibility.effect in Hrun. simpl in Hrun. rewrite E in Hrun. clear E.
  revert v n Hrun. induction trace as [| e trace IH]; intros v n Hrun; simpl in *.
  - injection Hrun as <-. simpl. eauto.
  - apply andb_prop in Hnot as [He Hnot]. destruct e as [? | | o entries]; [done | |].
    + simpl in Hrun. rewrite length_app, length_replicate in Hrun. simpl in Hrun.
      replace (n + 1)%nat with (S n) in Hrun by lia.
      rewrite cleanup_last in Hrun. unfold Visibility.effect in Hrun. simpl in Hrun.
      apply (IH Hnot v (S n)).
      exact Hrun.
    + simpl in Hrun.
      destruct ((replicate n [] ++ [[el]]) !! o) as [targets |]; [| done].
      destruct (forallb _ entries); [| done].
      destruct entries as [| [t b] rest]; [done |]. simpl in Hrun.
      by apply (IH Hnot b n).
Qed.

Lemma X19_witness :
  let h := {| Visibility.isInView := true; Visibility.current := Some 7%nat;
              Visibility.observers := [[]; []; [7%nat]] |} in
  Visibility.run Visibility.initial
    [Visibility.Attach (Some 7%nat); Visibility.Rerun; Visibility.Rerun;
     Visibility.Intersect 1 [(7%nat, true)]; Visibility.Rerun]
  = Some h /\
  exists n, Visibility.observers h = replicate n [] ++ [[7%nat]].
Proof.
  intros h. split; [reflexivity |].
  destruct (X19_stable_ref_one_live_observer 7
              [Visibility.Rerun; Visibility.Intersect 1 [(7%nat, true)]; Visibility.Rerun] h)
    as [_ H]; [reflexivity | reflexivity | exact H].
Defined.

(** ** The card past loading *)




